(** * remoteController: the axis device and the debounced button

    A shallow embedding of [src/device/device.cpp] (class [Device]) and of
    [struct Button] of [src/main.cpp], with the properties of the
    specification stated over them.

    - C++ [float] values are IEEE 754 binary32 numbers.  They are modelled
      by [spec_float] of the core library, whose comparison [SFcompare] is
      the IEEE one (unordered on NaN, [-0 = +0]).  The device only stores,
      copies and compares floats, so no rounding is involved.
    - [uint16_t] and [uint32_t] are modelled by [Z] with the wrap-around
      written out.
    - Member functions become functions on a record of the fields. *)

From Stdlib Require Import ZArith Bool List Lia.
From Stdlib Require Import Floats.SpecFloat.
From Stdlib Require Import Strings.String.
Import ListNotations.

Local Open Scope Z_scope.

(* ------------------------------------------------------------------ *)
(** * binary32 values and their comparisons *)
(* ------------------------------------------------------------------ *)

Module F32.

Definition float : Type := spec_float.

(** binary32: 24 bits of mantissa, infinities at exponent 128. *)
Definition prec : Z := 24.
Definition emax : Z := 128.

(** The values a C++ [float] can hold. *)
Definition is_float32 (x : float) : bool := valid_binary prec emax x.

(** The value of an integer literal converted to [float]. *)
Definition of_Z (z : Z) : float := binary_normalize prec emax z 0 false.

(** [0.0] *)
Definition zero : float := S754_zero false.
(** [-0.0] *)
Definition neg_zero : float := S754_zero true.
Definition nan : float := S754_nan.
Definition infinity : float := S754_infinity false.

(** The C++ comparison operators.  In [newPosition < 0.0] the float is
    promoted to [double]; the promotion is exact, so the comparison is
    the one of the two values. *)
Definition ltb (x y : float) : bool := SFltb x y.   (* x <  y *)
Definition leb (x y : float) : bool := SFleb x y.   (* x <= y *)
Definition gtb (x y : float) : bool := SFltb y x.   (* x >  y *)
Definition geb (x y : float) : bool := SFleb y x.   (* x >= y *)

Definition is_nan (x : float) : bool :=
  match x with S754_nan => true | _ => false end.

(** Finite: neither NaN nor an infinity. *)
Definition is_finite (x : float) : bool :=
  match x with
  | S754_zero _ | S754_finite _ _ _ => true
  | S754_infinity _ | S754_nan => false
  end.

End F32.

Definition float : Type := F32.float.

(* ------------------------------------------------------------------ *)
(** * class Device (src/device/device.h, src/device/device.cpp) *)
(* ------------------------------------------------------------------ *)

Record Device : Type := mkDevice {
  homed : bool;
  limit : float;
  currentPosition : float;
  ratio : float;
  accel : float
}.

(** [1000] and [1.0] as floats. *)
Definition f1000 : float := Eval cbv in F32.of_Z 1000.
Definition f1 : float := Eval cbv in F32.of_Z 1.

(** [Device::Device()]: no parameter, no failure. *)
Definition Device_new : Device :=
  {| homed := false;
     limit := f1000;
     currentPosition := F32.zero;
     ratio := f1;
     accel := f1 |}.

(** [void Device::homeAxis()] *)
Definition homeAxis (d : Device) : Device :=
  {| homed := true;
     limit := limit d;
     currentPosition := F32.zero;
     ratio := ratio d;
     accel := accel d |}.

Definition with_position (p : float) (d : Device) : Device :=
  {| homed := homed d;
     limit := limit d;
     currentPosition := p;
     ratio := ratio d;
     accel := accel d |}.

(** [void Device::setPosition(float newPosition)]: three guarded
    assignments and no final [else]. *)
Definition setPosition (newPosition : float) (d : Device) : Device :=
  if F32.ltb newPosition F32.zero then
    with_position F32.zero d
  else if F32.leb newPosition (limit d) && F32.geb newPosition F32.zero then
    with_position newPosition d
  else if F32.gtb newPosition (limit d) then
    with_position (limit d) d
  else d.

(** The accessors. *)
Definition isHomed (d : Device) : bool := homed d.
Definition getPosition (d : Device) : float := currentPosition d.
Definition getLimit (d : Device) : float := limit d.

(** The invariant of the data model: [0 <= position <= limit]. *)
Definition in_range (d : Device) : Prop :=
  F32.leb F32.zero (getPosition d) = true /\
  F32.leb (getPosition d) (getLimit d) = true.

(** The mutating operations of the public interface. *)
Inductive Op : Type :=
| OpSetPosition (newPosition : float)
| OpHomeAxis.

Definition step (d : Device) (o : Op) : Device :=
  match o with
  | OpSetPosition p => setPosition p d
  | OpHomeAxis => homeAxis d
  end.

Definition run (ops : list Op) (d : Device) : Device := fold_left step ops d.

(** A device as the program holds it after some use: homed, then sent
    to [42]. *)
Definition d42 : Device := setPosition (F32.of_Z 42) (homeAxis Device_new).

(** A device with the travel limit [80] that [main.cpp] announces
    ([AXIS_LIMIT]). *)
Definition d80 : Device :=
  {| homed := false; limit := F32.of_Z 80; currentPosition := F32.zero;
     ratio := f1; accel := f1 |}.

(** ** The constructor the specification describes *)

Inductive Error : Type := InvalidConfig.

(** Written from the words of the specification, to be compared with
    [Device_new]: [construct(limit)] sets [position = 0], [homed = false],
    [limit] as given, and rejects [limit < 0] with [InvalidConfig]. *)
Definition construct_spec (l : float) : Error + Device :=
  if F32.ltb l F32.zero then inl InvalidConfig
  else inr {| homed := false; limit := l; currentPosition := F32.zero;
              ratio := f1; accel := f1 |}.

(* ------------------------------------------------------------------ *)
(** * struct Button (src/main.cpp) *)
(* ------------------------------------------------------------------ *)

(** Arduino logic levels, as the [bool] that [digitalRead] is stored in. *)
Definition HIGH : bool := true.
Definition LOW : bool := false.

Definition BTN_PIN : Z := 22.

(** [const uint8_t DEBOUNCE_DELAY = 10;] in milliseconds. *)
Definition DEBOUNCE_DELAY : Z := 10.

Definition uint16 (z : Z) : Z := z mod 2 ^ 16.
Definition uint32 (z : Z) : Z := z mod 2 ^ 32.

Record Button : Type := mkButton {
  pin : Z;                 (* uint8_t  *)
  lastReading : bool;
  lastDebounceTime : Z;    (* uint32_t *)
  state : Z                (* uint16_t *)
}.

(** [bool pressed() { return state == 1; }] *)
Definition pressed (b : Button) : bool := state b =? 1.

(** [bool released() { return state == 0xffff; }] *)
Definition released (b : Button) : bool := state b =? 0xffff.

(** [bool held(uint16_t count = 0)]: [1 + count] is computed on [int]. *)
Definition held (count : Z) (b : Button) : bool :=
  (1 + count <? state b) && (state b <? 0xffff).

(** The timer after the first [if] of [read]: restarted at [t_change]
    (the value [millis()] returns there) when the level has changed. *)
Definition settle_timer (reading : bool) (t_change : Z) (b : Button) : Z :=
  if negb (Bool.eqb reading (lastReading b)) then t_change
  else lastDebounceTime b.

(** [millis() - lastDebounceTime > DEBOUNCE_DELAY], on [uint32_t]. *)
Definition settled (reading : bool) (t_change t_check : Z) (b : Button) : bool :=
  DEBOUNCE_DELAY <? uint32 (t_check - settle_timer reading t_change b).

(** The update of [state] inside the settled branch. *)
Definition next_state (reading : bool) (st : Z) : Z :=
  let pressed := Bool.eqb reading LOW in
  if pressed then
    if st <? 0xfffe then uint16 (st + 1)
    else if st =? 0xfffe then 2
    else st
  else if negb (st =? 0) then
    (if st =? 0xffff then 0 else 0xffff)
  else st.

(** [void read()].  The hardware is read three times: [digitalRead(pin)]
    gives [reading], and [millis()] is called once when the level has
    changed ([t_change]) and once for the test ([t_check]). *)
Definition read (reading : bool) (t_change t_check : Z) (b : Button) : Button :=
  {| pin := pin b;
     lastReading := reading;
     lastDebounceTime := settle_timer reading t_change b;
     state := if settled reading t_change t_check b
              then next_state reading (state b)
              else state b |}.

(** [sample(rawLevel, now)] of the specification: one [read] during which
    the clock shows [now]. *)
Definition sample (rawLevel : bool) (now : Z) (b : Button) : Button :=
  read rawLevel now now b.

(** [Button button = { BTN_PIN, HIGH, 0, 0 };] *)
Definition button : Button :=
  {| pin := BTN_PIN; lastReading := HIGH; lastDebounceTime := 0; state := 0 |}.

Definition feed (b : Button) (s : bool * Z) : Button :=
  sample (fst s) (snd s) b.

(** The button after a sequence of samples. *)
Definition samples (l : list (bool * Z)) (b : Button) : Button :=
  fold_left feed l b.

(** The buttons observed after each sample of a sequence. *)
Fixpoint trace (l : list (bool * Z)) (b : Button) : list Button :=
  match l with
  | [] => []
  | s :: rest => feed b s :: trace rest (feed b s)
  end.


(** The values of [state] that a [uint16_t] holds. *)
Definition is_uint16 (z : Z) : Prop := 0 <= z < 2 ^ 16.

(** ** Some runs of the button *)

(** A press held past the debounce delay: the change is seen at 100 ms,
    the settled level at 111 ms. *)
Definition press : list (bool * Z) := [(LOW, 100); (LOW, 111)].

(** The same press followed by a release seen at 120 ms and settled at
    131 ms. *)
Definition press_release : list (bool * Z) :=
  press ++ [(HIGH, 120); (HIGH, 131)].

(** The button is pressed again one poll after the release was reported. *)
Definition press_release_press : list (bool * Z) :=
  press_release ++ [(LOW, 132)].


(** A press held over several polls, then a release. *)
Definition press_hold_release : list (bool * Z) :=
  [(LOW, 100); (LOW, 111); (LOW, 112); (LOW, 113);
   (HIGH, 120); (HIGH, 131); (HIGH, 132)].

(** What the three predicates show. *)
Definition observe (b : Button) : bool * bool * bool :=
  (pressed b, held 0 b, released b).


(** A button whose held counter has reached its largest value. *)
Definition held_long : Button :=
  {| pin := BTN_PIN; lastReading := LOW; lastDebounceTime := 0;
     state := 0xfffe |}.

(** ** Further notions on the device and the button *)

(** The operation is a [homeAxis]. *)
Definition is_home (o : Op) : bool :=
  match o with OpHomeAxis => true | OpSetPosition _ => false end.

(** A hold: every sample reads the active level, later than
    [DEBOUNCE_DELAY] after the change seen at [changed]. *)
Definition holding (changed : Z) (l : list (bool * Z)) : Prop :=
  Forall (fun s => fst s = LOW /\ DEBOUNCE_DELAY < uint32 (snd s - changed)) l.

(** Every sample reads the active level, at whatever time. *)
Definition all_active (l : list (bool * Z)) : Prop :=
  Forall (fun s => fst s = LOW) l.

(** A button that has seen the level go active at 100 ms, and samples of
    a hold that follows. *)
Definition touched : Button := sample LOW 100 button.

Definition hold : list (bool * Z) := [(LOW, 111); (LOW, 112); (LOW, 500)].

(* ------------------------------------------------------------------ *)
(** * The application (src/main.cpp) *)
(* ------------------------------------------------------------------ *)

(** ** struct Led *)

Module Led.

Record t : Type := mk {
  pin : Z;       (* uint8_t *)
  on : bool
}.

(** The output pins: the level that [digitalWrite] has last driven on
    each of them. *)
Definition Gpio : Type := Z -> bool.

Definition digitalWrite (p : Z) (val : bool) (g : Gpio) : Gpio :=
  fun q => if q =? p then val else g q.

(** [void update() { digitalWrite(pin, on ? HIGH : LOW); }] *)
Definition update (l : t) (g : Gpio) : Gpio :=
  digitalWrite (pin l) (if on l then HIGH else LOW) g.

End Led.

(** ** JSON documents

    The documents that the handlers build member by member with
    ArduinoJson, before [serializeJson] turns them into text. *)
Inductive JsonValue : Type :=
| JInt (z : Z)
| JFloat (x : float)
| JBool (b : bool)
| JString (s : string).

Inductive JsonMember : Type :=
| JScalar (v : JsonValue)
| JArray (items : list JsonValue).

(** A JSON object: its members in the order they were created. *)
Definition Json : Type := list (string * JsonMember).

(** What a handler passes to [request->send]: a bare status code, or a
    status code, a content type and the document that is serialized. *)
Inductive Response : Type :=
| SendCode (code : Z)
| SendJson (code : Z) (contentType : string) (doc : Json).

Definition status_code (r : Response) : Z :=
  match r with SendCode c => c | SendJson c _ _ => c end.

(** The members of [AwsFrameInfo] that [handleWebSocketMessage] reads. *)
Inductive AwsFrameType : Type :=
| WS_CONTINUATION | WS_TEXT | WS_BINARY | WS_DISCONNECT | WS_PING | WS_PONG.

Record AwsFrameInfo : Type := mkFrameInfo {
  final : bool;
  index : Z;        (* uint64_t *)
  len : Z;          (* uint64_t *)
  opcode : AwsFrameType
}.

Inductive AwsEventType : Type :=
| WS_EVT_CONNECT | WS_EVT_DISCONNECT | WS_EVT_PONG | WS_EVT_ERROR
| WS_EVT_DATA.

(** The outcome of [deserializeJson] on the payload: an error, or a
    document whose member ["action"], read as [const char *], is a string
    or the null pointer. *)
Inductive Payload : Type :=
| DeserializationError
| Document (action : option string).

Definition frame_type_eqb (a b : AwsFrameType) : bool :=
  match a, b with
  | WS_CONTINUATION, WS_CONTINUATION | WS_TEXT, WS_TEXT
  | WS_BINARY, WS_BINARY | WS_DISCONNECT, WS_DISCONNECT
  | WS_PING, WS_PING | WS_PONG, WS_PONG => true
  | _, _ => false
  end.

Module Main.

Definition LED_PIN : Z := 26.
Definition NUMBER_OF_AXES : Z := 1.
Definition AXIS_LIMIT : Z := 80.

(** [0.01] rounded to binary32. *)
Definition f0_01 : float := S754_finite false 10737418 (-30).

(** The value of the global [button] when the program starts. *)
Definition button_at_start : Button := button.

(** The global variables of [main.cpp], with the output pins and the
    texts handed to [ws.textAll] (oldest first). *)
Record Globals : Type := mkGlobals {
  currentPositionSteps : Z;       (* int *)
  currentPosition : float;
  stepsToMilimeters : float;
  isHomed : bool;
  onboard_led : Led.t;
  led : Led.t;
  button : Button;
  gpio : Led.Gpio;
  sent : list Json
}.

(** The initial values.  [LED_BUILTIN] is defined by the board. *)
Definition start (LED_BUILTIN : Z) (pins : Led.Gpio) : Globals :=
  {| currentPositionSteps := 0;
     currentPosition := F32.zero;
     stepsToMilimeters := f0_01;
     isHomed := false;
     onboard_led := Led.mk LED_BUILTIN false;
     led := Led.mk LED_PIN false;
     button := button_at_start;
     gpio := pins;
     sent := [] |}.

Definition set_currentPosition (x : float) (g : Globals) : Globals :=
  mkGlobals (currentPositionSteps g) x (stepsToMilimeters g) (isHomed g)
            (onboard_led g) (led g) (button g) (gpio g) (sent g).

Definition set_isHomed (h : bool) (g : Globals) : Globals :=
  mkGlobals (currentPositionSteps g) (currentPosition g) (stepsToMilimeters g)
            h (onboard_led g) (led g) (button g) (gpio g) (sent g).

Definition set_onboard_led (l : Led.t) (g : Globals) : Globals :=
  mkGlobals (currentPositionSteps g) (currentPosition g) (stepsToMilimeters g)
            (isHomed g) l (led g) (button g) (gpio g) (sent g).

Definition set_led (l : Led.t) (g : Globals) : Globals :=
  mkGlobals (currentPositionSteps g) (currentPosition g) (stepsToMilimeters g)
            (isHomed g) (onboard_led g) l (button g) (gpio g) (sent g).

Definition set_button (b : Button) (g : Globals) : Globals :=
  mkGlobals (currentPositionSteps g) (currentPosition g) (stepsToMilimeters g)
            (isHomed g) (onboard_led g) (led g) b (gpio g) (sent g).

Definition set_gpio (p : Led.Gpio) (g : Globals) : Globals :=
  mkGlobals (currentPositionSteps g) (currentPosition g) (stepsToMilimeters g)
            (isHomed g) (onboard_led g) (led g) (button g) p (sent g).

Definition textAll (doc : Json) (g : Globals) : Globals :=
  mkGlobals (currentPositionSteps g) (currentPosition g) (stepsToMilimeters g)
            (isHomed g) (onboard_led g) (led g) (button g) (gpio g)
            (sent g ++ [doc]).

(** [led.on ? "on" : "off"] *)
Definition status_word (g : Globals) : string :=
  if Led.on (led g) then "on"%string else "off"%string.

(** [String processor(const String &var)] *)
Definition processor (var : string) (g : Globals) : string :=
  if String.eqb var "STATE" && Led.on (led g) then "on"%string
  else "off"%string.

(** [void notifyClients()] *)
Definition notifyClients (g : Globals) : Globals :=
  textAll [("status"%string, JScalar (JString (status_word g)))] g.

(** [led.on = !led.on;] *)
Definition toggle_led (g : Globals) : Globals :=
  set_led (Led.mk (Led.pin (led g)) (negb (Led.on (led g)))) g.

(** [void handleWebSocketMessage(void *arg, uint8_t *data, size_t len)].
    [strcmp] on a null [action] has no defined result: [None]. *)
Definition handleWebSocketMessage
    (info : AwsFrameInfo) (length : Z) (payload : Payload) (g : Globals)
  : option Globals :=
  if final info && (index info =? 0) && (len info =? length)
     && frame_type_eqb (opcode info) WS_TEXT
  then
    match payload with
    | DeserializationError => Some g
    | Document None => None
    | Document (Some action) =>
        if String.eqb action "toggle"
        then Some (notifyClients (toggle_led g))
        else Some g
    end
  else Some g.

(** [void onEvent(...)]: the other events only print. *)
Definition onEvent (type : AwsEventType) (info : AwsFrameInfo) (length : Z)
    (payload : Payload) (g : Globals) : option Globals :=
  match type with
  | WS_EVT_DATA => handleWebSocketMessage info length payload g
  | WS_EVT_CONNECT | WS_EVT_DISCONNECT | WS_EVT_PONG | WS_EVT_ERROR => Some g
  end.

Definition json : string := "application/json".

(** [void getDeviceType(AsyncWebServerRequest *request)] *)
Definition getDeviceType (g : Globals) : Globals * Response :=
  (g, SendJson 200 json [("type"%string, JScalar (JString "1d"))]).

(** [void getNumberOfAxes(AsyncWebServerRequest *request)] *)
Definition getNumberOfAxes (g : Globals) : Globals * Response :=
  (g, SendJson 200 json
        [("numberOfAxes"%string, JScalar (JInt NUMBER_OF_AXES))]).

(** [void getPosition(AsyncWebServerRequest *request)] *)
Definition getPosition (g : Globals) : Globals * Response :=
  (g, SendJson 200 json
        [("axes"%string, JArray [JInt NUMBER_OF_AXES]);
         ("units"%string, JArray [JString "mm"]);
         ("position"%string, JArray [JFloat (currentPosition g)])]).

(** [void homeAxis(AsyncWebServerRequest *request)] *)
Definition homeAxis (g : Globals) : Globals * Response :=
  (set_isHomed true g, SendCode 200).

(** [void axisHomeCheck(AsyncWebServerRequest *request)] *)
Definition axisHomeCheck (g : Globals) : Globals * Response :=
  (g, SendJson 200 json
        [("axesChecked"%string, JArray [JInt NUMBER_OF_AXES]);
         ("homeStatus"%string, JArray [JBool (isHomed g)])]).

(** [void setPosition(AsyncWebServerRequest *request, JsonObject jsonObj)].
    [position] is [None] when the object has no key ["position"], and else
    the float that [jsonObj["position"][0]] converts to. *)
Definition setPosition (position : option float) (g : Globals)
  : Globals * Response :=
  (match position with
   | Some p => set_currentPosition p g
   | None => g
   end, SendCode 200).

(** [void getAxesLimits(AsyncWebServerRequest *request)]: the unit is
    added to the array [limit], after the array [units] was created. *)
Definition getAxesLimits (g : Globals) : Globals * Response :=
  (g, SendJson 200 json
        [("axes"%string, JArray [JInt NUMBER_OF_AXES]);
         ("limits"%string, JArray [JInt AXIS_LIMIT; JString "mm"]);
         ("units"%string, JArray [])]).

(** The routes registered in [setup]. *)
Inductive Request : Type :=
| GetDeviceType
| GetNumberOfAxes
| GetPosition
| HomeAxis
| AxisHomeCheck
| GetAxesLimits
| SetPosition (position : option float).

Definition serve (r : Request) (g : Globals) : Globals * Response :=
  match r with
  | GetDeviceType => getDeviceType g
  | GetNumberOfAxes => getNumberOfAxes g
  | GetPosition => getPosition g
  | HomeAxis => homeAxis g
  | AxisHomeCheck => axisHomeCheck g
  | GetAxesLimits => getAxesLimits g
  | SetPosition p => setPosition p g
  end.

(** The globals after a sequence of requests, and the responses. *)
Fixpoint serve_all (rs : list Request) (g : Globals)
  : Globals * list Response :=
  match rs with
  | [] => (g, [])
  | r :: rest =>
      let (g1, resp) := serve r g in
      let (g2, resps) := serve_all rest g1 in
      (g2, resp :: resps)
  end.

(** One pass of [void loop()].  [reading] is what [digitalRead] returns
    for the button; [t_change], [t_check] and [t_blink] are the values of
    the calls of [millis()], the first two inside [button.read()].
    [ws.cleanupClients()] touches none of the globals. *)
Definition loop (reading : bool) (t_change t_check t_blink : Z)
    (g : Globals) : Globals :=
  let g1 := set_button (read reading t_change t_check (button g)) g in
  let g2 := if pressed (button g1)
            then notifyClients (toggle_led g1)
            else g1 in
  let g3 := set_onboard_led
              (Led.mk (Led.pin (onboard_led g2)) (t_blink mod 1000 <? 50))
              g2 in
  let g4 := set_gpio (Led.update (led g3) (gpio g3)) g3 in
  set_gpio (Led.update (onboard_led g4) (gpio g4)) g4.

(** A pass of [loop] during which the clock shows [now]. *)
Definition tick (g : Globals) (s : bool * Z) : Globals :=
  loop (fst s) (snd s) (snd s) (snd s) g.

Definition ticks (l : list (bool * Z)) (g : Globals) : Globals :=
  fold_left tick l g.

(** The calls that reach the globals. *)
Inductive Event : Type :=
| EvLoop (reading : bool) (t_change t_check t_blink : Z)
| EvRequest (r : Request)
| EvSocket (type : AwsEventType) (info : AwsFrameInfo) (length : Z)
           (payload : Payload).

Definition react (e : Event) (g : Globals) : option Globals :=
  match e with
  | EvLoop reading t_change t_check t_blink =>
      Some (loop reading t_change t_check t_blink g)
  | EvRequest r => Some (fst (serve r g))
  | EvSocket type info length payload => onEvent type info length payload g
  end.

(** The calls made one after the other. *)
Fixpoint react_all (es : list Event) (g : Globals) : option Globals :=
  match es with
  | [] => Some g
  | e :: rest =>
      match react e g with
      | Some g1 => react_all rest g1
      | None => None
      end
  end.

End Main.

(** ** Notions on runs of the application *)

(** The number of samples of a run after which [pressed()] holds. *)
Definition presses (l : list (bool * Z)) (b : Button) : nat :=
  List.length (filter pressed (trace l b)).

(** The text that [notifyClients] sends for a state of the LED. *)
Definition status_doc (on : bool) : Json :=
  [("status"%string,
    JScalar (JString (if on then "on"%string else "off"%string)))].

(** The last text handed to [ws.textAll], if any. *)
Definition last_sent (g : Main.Globals) : option Json :=
  List.last (map Some (Main.sent g)) None.

(** The clients have been told the state the LED is in, or nothing yet. *)
Definition in_sync (g : Main.Globals) : Prop :=
  Main.sent g = [] \/
  last_sent g = Some (status_doc (Led.on (Main.led g))).

(** The frame is a whole message in one text frame of [length] bytes. *)
Definition whole_text_frame (info : AwsFrameInfo) (length : Z) : Prop :=
  final info = true /\ index info = 0 /\ len info = length /\
  opcode info = WS_TEXT.

(** The position that a sequence of requests supplies last, [init] when
    it supplies none. *)
Definition last_position (rs : list Main.Request) (init : float) : float :=
  fold_left (fun acc r =>
               match r with
               | Main.SetPosition (Some p) => p
               | _ => acc
               end) rs init.

Definition is_HomeAxis (r : Main.Request) : bool :=
  match r with Main.HomeAxis => true | _ => false end.

(** The globals when the program starts on a board whose built-in LED is
    on pin 2, all outputs low. *)
Definition g0 : Main.Globals := Main.start 2 (fun _ => LOW).


(** A whole text frame of 19 bytes. *)
Definition text19 : AwsFrameInfo :=
  {| final := true; index := 0; len := 19; opcode := WS_TEXT |}.

(* ------------------------------------------------------------------ *)
(** * Facts on the comparisons *)
(* ------------------------------------------------------------------ *)

Module F32Facts.
Import F32.

(** Swapping the operands of the IEEE comparison mirrors its result. *)
Lemma compare_swap (x y : float) :
  SFcompare y x = option_map CompOpp (SFcompare x y).
Proof.
  destruct x as [s1|s1| |s1 m1 e1], y as [s2|s2| |s2 m2 e2]; simpl;
    try reflexivity;
    try (destruct s1; reflexivity);
    try (destruct s2; reflexivity);
    try (destruct s1, s2; reflexivity).
  destruct s1, s2; simpl; try reflexivity;
    rewrite (Z.compare_antisym e1 e2);
    destruct (e1 ?= e2); simpl; try reflexivity;
    rewrite (Pos.compare_cont_antisym m1 m2 Eq); reflexivity.
Qed.

Lemma compare_refl (x : float) :
  is_nan x = false -> SFcompare x x = Some Eq.
Proof.
  destruct x as [s|s| |s m e]; simpl; intros H;
    try discriminate; try reflexivity.
  - destruct s; reflexivity.
  - rewrite Z.compare_refl, Pos.compare_cont_refl. destruct s; reflexivity.
Qed.

Lemma leb_not_nan_l (x y : float) : leb x y = true -> is_nan x = false.
Proof. destruct x; simpl; auto; destruct y; discriminate. Qed.

Lemma leb_not_nan_r (x y : float) : leb x y = true -> is_nan y = false.
Proof. destruct y; simpl; auto; destruct x; discriminate. Qed.

Lemma leb_refl (x : float) : is_nan x = false -> leb x x = true.
Proof.
  intros H. unfold leb, SFleb. rewrite (compare_refl x H). reflexivity.
Qed.

(** Two ordered values are comparable: [x <= y] or [x > y]. *)
Lemma leb_or_gtb (x y : float) :
  is_nan x = false -> is_nan y = false ->
  leb x y = true \/ gtb x y = true.
Proof.
  intros Hx Hy. unfold leb, gtb, SFleb, SFltb.
  rewrite (compare_swap x y).
  destruct x, y; try discriminate;
    (destruct (SFcompare _ _) as [[ | | ]|] eqn:E; simpl; auto;
     simpl in E; discriminate).
Qed.

(** [x < 0] or [x >= 0] for an ordered [x]. *)
Lemma ltb_zero_or_geb (x : float) :
  is_nan x = false -> ltb x zero = true \/ geb x zero = true.
Proof. destruct x as [s|s| |s m e]; try destruct s; simpl; auto. Qed.

Lemma ltb_zero_not_geb (x : float) :
  ltb x zero = true -> geb x zero = false.
Proof. destruct x as [s|s| |s m e]; try destruct s; simpl; auto. Qed.

(** [0 <= x] and [x <= y] give [0 <= y]. *)
Lemma leb_zero_trans (x y : float) :
  leb zero x = true -> leb x y = true -> leb zero y = true.
Proof.
  destruct x as [s1|s1| |s1 m1 e1], y as [s2|s2| |s2 m2 e2];
    try destruct s1; try destruct s2; simpl; auto.
Qed.

(** [0 <= y] and [y < x] give [not (x < 0)]. *)
Lemma gtb_limit_not_negative (x y : float) :
  leb zero y = true -> gtb x y = true -> ltb x zero = false.
Proof.
  destruct x as [s1|s1| |s1 m1 e1], y as [s2|s2| |s2 m2 e2];
    try destruct s1; try destruct s2; simpl; auto.
Qed.

Lemma gtb_not_leb (x y : float) : gtb x y = true -> leb x y = false.
Proof.
  unfold leb, gtb, SFleb, SFltb. rewrite (compare_swap x y).
  destruct (SFcompare x y) as [[ | | ]|]; simpl; auto; discriminate.
Qed.

Lemma finite_not_nan (x : float) : is_finite x = true -> is_nan x = false.
Proof. destruct x; simpl; auto; discriminate. Qed.

End F32Facts.

(* ------------------------------------------------------------------ *)
(** * The axis device *)
(* ------------------------------------------------------------------ *)

Section DeviceFacts.
Import F32 F32Facts.

(** Which assignment of [setPosition] is taken. *)
Lemma setPosition_negative (d : Device) (t : float) :
  ltb t zero = true -> setPosition t d = with_position zero d.
Proof. intros H. unfold setPosition. rewrite H. reflexivity. Qed.

Lemma setPosition_inside (d : Device) (t : float) :
  leb zero t = true -> leb t (limit d) = true ->
  setPosition t d = with_position t d.
Proof.
  intros H0 Hl. unfold setPosition.
  destruct (ltb t zero) eqn:E.
  - apply ltb_zero_not_geb in E. unfold geb in E.
    unfold leb in H0. congruence.
  - unfold geb. unfold leb in *. rewrite Hl, H0. reflexivity.
Qed.

Lemma setPosition_above (d : Device) (t : float) :
  ltb t zero = false -> gtb t (limit d) = true ->
  setPosition t d = with_position (limit d) d.
Proof.
  intros H0 Hl. unfold setPosition. rewrite H0.
  rewrite (gtb_not_leb _ _ Hl), Hl. reflexivity.
Qed.

Lemma setPosition_nan (d : Device) (t : float) :
  is_nan t = true -> setPosition t d = d.
Proof.
  destruct t; try discriminate. intros _.
  unfold setPosition. destruct (limit d); reflexivity.
Qed.

(** [setPosition] writes [0], its argument or the limit, or nothing. *)
Lemma setPosition_cases (d : Device) (t : float) :
  setPosition t d = with_position zero d \/
  (setPosition t d = with_position t d /\
   leb zero t = true /\ leb t (limit d) = true) \/
  setPosition t d = with_position (limit d) d \/
  setPosition t d = d.
Proof.
  unfold setPosition.
  destruct (ltb t zero); auto.
  destruct (leb t (limit d)) eqn:E1; simpl; auto.
  - destruct (geb t zero) eqn:E2.
    + right. left. repeat split; first [reflexivity | exact E2].
    + destruct (gtb t (limit d)); auto.
  - destruct (gtb t (limit d)); auto.
Qed.

Lemma in_range_zero (d : Device) :
  leb zero (limit d) = true -> in_range (with_position zero d).
Proof. intros H. split; [reflexivity | exact H]. Qed.

Lemma in_range_limit (d : Device) :
  leb zero (limit d) = true -> in_range (with_position (limit d) d).
Proof.
  intros H. split; [exact H|]. apply leb_refl.
  exact (leb_not_nan_r _ _ H).
Qed.

Lemma in_range_limit_nonneg (d : Device) :
  in_range d -> leb zero (limit d) = true.
Proof. intros [H1 H2]. exact (leb_zero_trans _ _ H1 H2). Qed.

Lemma setPosition_in_range (d : Device) (t : float) :
  in_range d -> in_range (setPosition t d).
Proof.
  intros H. pose proof (in_range_limit_nonneg d H) as Hl.
  destruct (setPosition_cases d t) as [E|[[E [H0 H1]]|[E|E]]]; rewrite E.
  - now apply in_range_zero.
  - split; assumption.
  - now apply in_range_limit.
  - exact H.
Qed.

Lemma homeAxis_in_range (d : Device) :
  in_range d -> in_range (homeAxis d).
Proof. intros H. split; [reflexivity|]. exact (in_range_limit_nonneg d H). Qed.

Lemma Device_new_in_range : in_range Device_new.
Proof. split; reflexivity. Qed.

(** The frame of each operation. *)
Lemma setPosition_frame (d : Device) (t : float) :
  homed (setPosition t d) = homed d /\
  limit (setPosition t d) = limit d /\
  ratio (setPosition t d) = ratio d /\
  accel (setPosition t d) = accel d.
Proof.
  destruct (setPosition_cases d t) as [E|[[E _]|[E|E]]]; rewrite E;
    repeat split; reflexivity.
Qed.

Lemma step_limit (d : Device) (o : Op) : limit (step d o) = limit d.
Proof. destruct o; simpl; [apply setPosition_frame | reflexivity]. Qed.

Lemma step_homed (d : Device) (o : Op) :
  homed d = true -> homed (step d o) = true.
Proof.
  destruct o; simpl; [|reflexivity].
  intros H. destruct (setPosition_frame d newPosition) as [E _]. congruence.
Qed.

Lemma step_in_range (d : Device) (o : Op) :
  in_range d -> in_range (step d o).
Proof.
  destruct o; simpl; [apply setPosition_in_range | apply homeAxis_in_range].
Qed.

Lemma run_limit (ops : list Op) : forall d, limit (run ops d) = limit d.
Proof.
  induction ops as [|o ops IH]; intros d; simpl; [reflexivity|].
  unfold run in IH. rewrite IH. apply step_limit.
Qed.

Lemma run_homed (ops : list Op) :
  forall d, homed d = true -> homed (run ops d) = true.
Proof.
  induction ops as [|o ops IH]; intros d H; simpl; [exact H|].
  apply IH. now apply step_homed.
Qed.

(** Every device the program can hold is in range, with limit [1000]. *)
Lemma run_in_range (ops : list Op) :
  forall d, in_range d -> in_range (run ops d).
Proof.
  induction ops as [|o ops IH]; intros d H; simpl; [exact H|].
  apply IH. now apply step_in_range.
Qed.

Lemma reachable_limit (ops : list Op) :
  getLimit (run ops Device_new) = f1000 /\ in_range (run ops Device_new).
Proof.
  split; [apply run_limit | apply run_in_range, Device_new_in_range].
Qed.

(** Clamping at the limit [80]. *)
Example setPosition_below_80 :
  getPosition (setPosition (of_Z (-5)) d80) = zero.
Proof. reflexivity. Qed.

Example setPosition_above_80 :
  getPosition (setPosition (of_Z 200) d80) = of_Z 80.
Proof. reflexivity. Qed.

Example setPosition_inside_80 :
  getPosition (setPosition (of_Z 42) d80) = of_Z 42.
Proof. reflexivity. Qed.

(** [-0.0] is not below [0.0]: it is stored as it is. *)
Example setPosition_neg_zero :
  getPosition (setPosition neg_zero d80) = neg_zero.
Proof. reflexivity. Qed.

Example setPosition_infinity :
  getPosition (setPosition infinity d80) = of_Z 80 /\
  getPosition (setPosition (S754_infinity true) d80) = zero.
Proof. split; reflexivity. Qed.

End DeviceFacts.

Section DeviceClaims.
Import F32 F32Facts.

(** C1.  The invariant [0 <= position <= limit] is kept by every
    mutating operation: from a device in range, [setPosition target]
    for every float [target] (NaN and the infinities included) and
    [homeAxis] give a device with
    [0 <= getPosition() <= getLimit()]. *)
Theorem position_invariant (d : Device) :
  in_range d ->
  (forall target : float,
      leb zero (getPosition (setPosition target d)) = true /\
      leb (getPosition (setPosition target d))
          (getLimit (setPosition target d)) = true) /\
  (leb zero (getPosition (homeAxis d)) = true /\
   leb (getPosition (homeAxis d)) (getLimit (homeAxis d)) = true).
Proof.
  intros H. split.
  - intros target. exact (setPosition_in_range d target H).
  - exact (homeAxis_in_range d H).
Qed.

Lemma position_invariant_witness :
  in_range d42 /\
  in_range (setPosition (of_Z 2000) d42) /\
  in_range (setPosition nan d42) /\
  in_range (homeAxis d42).
Proof.
  assert (H : in_range d42) by (split; reflexivity).
  split; [exact H|].
  destruct (position_invariant d42 H) as [Hs Hh].
  split; [exact (Hs (of_Z 2000))|].
  split; [exact (Hs nan) | exact Hh].
Defined.

(** C2.  [setPosition target] clamps and commits in one step.  For every
    finite [target] and every device whose limit is not negative (the
    limit of the program's device is always [1000]): a [target < 0]
    gives position [0], a [target] with [0 <= target <= limit] gives
    position [target], a [target > limit] gives position [limit]; one of
    the three cases always applies, and the function is total, so there
    is no error path. *)
Theorem setPosition_clamps (d : Device) (target : float) :
  is_finite target = true ->
  leb zero (getLimit d) = true ->
  (ltb target zero = true ->
     getPosition (setPosition target d) = zero) /\
  (leb zero target = true /\ leb target (getLimit d) = true ->
     getPosition (setPosition target d) = target) /\
  (gtb target (getLimit d) = true ->
     getPosition (setPosition target d) = getLimit d) /\
  (ltb target zero = true \/
   (leb zero target = true /\ leb target (getLimit d) = true) \/
   gtb target (getLimit d) = true).
Proof.
  intros Hfin Hlim. unfold getLimit in *.
  repeat split.
  - intros H. rewrite (setPosition_negative d target H). reflexivity.
  - intros [H0 H1]. rewrite (setPosition_inside d target H0 H1). reflexivity.
  - intros H.
    rewrite (setPosition_above d target
               (gtb_limit_not_negative _ _ Hlim H) H).
    reflexivity.
  - pose proof (finite_not_nan target Hfin) as Hn.
    destruct (ltb_zero_or_geb target Hn) as [H|H]; [now left|right].
    destruct (leb_or_gtb target (limit d) Hn (leb_not_nan_r _ _ Hlim))
      as [H1|H1]; [left; split; [exact H | exact H1] | now right].
Qed.

Lemma setPosition_clamps_witness :
  getPosition (setPosition (of_Z (-5)) d42) = zero /\
  getPosition (setPosition (of_Z 42) Device_new) = of_Z 42 /\
  getPosition (setPosition (of_Z 2000) d42) = getLimit d42.
Proof.
  split; [|split].
  - apply (setPosition_clamps d42 (of_Z (-5))); reflexivity.
  - apply (setPosition_clamps Device_new (of_Z 42));
      [reflexivity | reflexivity | split; reflexivity].
  - apply (setPosition_clamps d42 (of_Z 2000)); reflexivity.
Defined.

(** The claim C7 fails on the code in its clause on a device already
    homed: [homeAxis] is no no-op there.  The device [d42], homed and then
    sent to [42], is homed, and [homeAxis] moves it back to [0]. *)
Lemma homeAxis_moves_homed_device :
  isHomed d42 = true /\
  getPosition d42 = of_Z 42 /\
  getPosition (homeAxis d42) = zero /\
  getPosition (homeAxis d42) <> getPosition d42 /\
  homeAxis d42 <> d42.
Proof.
  split; [reflexivity|]. split; [reflexivity|]. split; [reflexivity|].
  split; [discriminate|].
  intros E. apply (f_equal getPosition) in E. discriminate E.
Qed.

(** C7, amended.  [homeAxis] sets the position to [0] and [homed] to
    [true] from every prior state, whatever the position and the homing
    status were, so its observable effect is the same on a device already
    homed.  It is idempotent: two calls in a row give the state of one
    call.  The call changes nothing exactly when the device is homed and
    at [0], as [homeAxis] leaves it; a homed device that was moved is
    sent back to [0]. *)
Theorem homeAxis_idempotent (d : Device) :
  getPosition (homeAxis d) = zero /\
  isHomed (homeAxis d) = true /\
  getLimit (homeAxis d) = getLimit d /\
  homeAxis (homeAxis d) = homeAxis d /\
  (forall (h : bool) (p : float),
      homeAxis (mkDevice h (limit d) p (ratio d) (accel d)) = homeAxis d) /\
  (isHomed d = true /\ getPosition d = zero <-> homeAxis d = d).
Proof.
  repeat split.
  - destruct d as [h l p r a]. simpl. intros [-> ->]. reflexivity.
  - rewrite <- H. reflexivity.
  - rewrite <- H. reflexivity.
Qed.

Lemma homeAxis_idempotent_witness :
  isHomed (homeAxis d42) = true /\
  getPosition (homeAxis d42) = zero /\
  homeAxis (homeAxis d42) = homeAxis d42.
Proof.
  split; [reflexivity|]. split; [reflexivity|].
  destruct (homeAxis_idempotent (homeAxis d42)) as (_ & _ & _ & _ & _ & H).
  apply H. split; reflexivity.
Defined.

(** The claim C8 fails on the code: a caller asking for the limit [80]
    gets the limit [1000], and a negative limit cannot be rejected since
    the only constructor takes no argument and always succeeds. *)
Lemma construct_ignores_limit :
  is_float32 (of_Z 80) = true /\
  construct_spec (of_Z 80) <> inr Device_new /\
  getLimit Device_new <> of_Z 80 /\
  is_float32 (of_Z (-1)) = true /\
  construct_spec (of_Z (-1)) = inl InvalidConfig /\
  construct_spec (of_Z (-1)) <> inr Device_new.
Proof. repeat split; try reflexivity; discriminate. Qed.

(** C8, amended.  Construction takes no parameter and cannot fail: it
    gives position [0], [homed = false] and the fixed limit [1000]
    (ratio and acceleration [1]), a state in which
    [0 <= position <= limit] holds. *)
Theorem Device_new_state :
  getPosition Device_new = zero /\
  isHomed Device_new = false /\
  getLimit Device_new = of_Z 1000 /\
  ratio Device_new = of_Z 1 /\
  accel Device_new = of_Z 1 /\
  is_float32 (getLimit Device_new) = true /\
  in_range Device_new.
Proof. repeat split. Qed.

(** C9.  A NaN target leaves the device entirely unchanged: none of the
    three conditions of [setPosition] holds, so the position keeps its
    value and a device in range stays in range. *)
Theorem setPosition_nan_noop (d : Device) (target : float) :
  is_nan target = true ->
  ltb target zero = false /\
  leb target (getLimit d) && geb target zero = false /\
  gtb target (getLimit d) = false /\
  setPosition target d = d /\
  (in_range d -> in_range (setPosition target d)).
Proof.
  intros H. destruct target; try discriminate.
  unfold getLimit. rewrite (setPosition_nan d S754_nan H).
  split; [reflexivity|].
  split; [destruct (limit d); reflexivity|].
  split; [destruct (limit d); reflexivity|].
  split; [reflexivity | exact (fun I => I)].
Qed.

Lemma setPosition_nan_noop_witness :
  setPosition nan d42 = d42 /\ in_range (setPosition nan d42).
Proof.
  destruct (setPosition_nan_noop d42 nan eq_refl) as (_ & _ & _ & E & I).
  split; [exact E | apply I; split; reflexivity].
Defined.

(** C10.  Frame conditions.  [setPosition] changes at most the position:
    [homed] and [limit] (and ratio and acceleration) are kept for every
    argument.  [homeAxis] changes at most the position and [homed]: the
    limit is kept.  Hence no sequence of operations changes the limit,
    and [homed], once true, stays true. *)
Theorem operations_frame (d : Device) :
  (forall t : float,
      isHomed (setPosition t d) = isHomed d /\
      getLimit (setPosition t d) = getLimit d /\
      ratio (setPosition t d) = ratio d /\
      accel (setPosition t d) = accel d) /\
  (getLimit (homeAxis d) = getLimit d /\
   ratio (homeAxis d) = ratio d /\
   accel (homeAxis d) = accel d) /\
  (forall ops : list Op, getLimit (run ops d) = getLimit d) /\
  (forall ops : list Op,
      isHomed d = true -> isHomed (run ops d) = true).
Proof.
  split; [|split; [|split]].
  - intros t. exact (setPosition_frame d t).
  - repeat split.
  - intros ops. apply run_limit.
  - intros ops. apply run_homed.
Qed.

Lemma operations_frame_witness :
  isHomed d42 = true /\
  isHomed (run [OpSetPosition (of_Z (-5)); OpSetPosition nan;
                OpHomeAxis; OpSetPosition infinity] d42) = true.
Proof.
  split; [reflexivity|].
  destruct (operations_frame d42) as (_ & _ & _ & H).
  apply H. reflexivity.
Defined.

End DeviceClaims.

(* ------------------------------------------------------------------ *)
(** * The debounced button *)
(* ------------------------------------------------------------------ *)

Section ButtonFacts.


(** A reading other than the last one restarts the timer ... *)
Lemma settle_timer_changed (b : Button) (r : bool) (t : Z) :
  r <> lastReading b -> settle_timer r t b = t.
Proof.
  intros H. unfold settle_timer.
  destruct (Bool.eqb r (lastReading b)) eqn:E; [|reflexivity].
  apply Bool.eqb_prop in E. contradiction.
Qed.

Lemma settle_timer_same (b : Button) (r : bool) (t : Z) :
  r = lastReading b -> settle_timer r t b = lastDebounceTime b.
Proof.
  intros ->. unfold settle_timer. rewrite Bool.eqb_reflx. reflexivity.
Qed.



Lemma sample_state_settled (b : Button) (r : bool) (now : Z) :
  settled r now now b = true ->
  state (sample r now b) = next_state r (state b).
Proof. intros H. unfold sample, read. simpl. rewrite H. reflexivity. Qed.

Lemma sample_state_unsettled (b : Button) (r : bool) (now : Z) :
  settled r now now b = false -> state (sample r now b) = state b.
Proof. intros H. unfold sample, read. simpl. rewrite H. reflexivity. Qed.


(** [state] stays a [uint16_t]; the increment never wraps. *)
Lemma next_state_active (st : Z) :
  0 <= st < 0xfffe -> next_state LOW st = st + 1.
Proof.
  intros H. unfold next_state. simpl.
  destruct (Z.ltb_spec st 0xfffe) as [_|C]; [|lia].
  unfold uint16. apply Z.mod_small. lia.
Qed.

Lemma next_state_wrap : next_state LOW 0xfffe = 2.
Proof. reflexivity. Qed.

Lemma next_state_inactive (st : Z) :
  next_state HIGH st =
  if st =? 0 then 0 else if st =? 0xffff then 0 else 0xffff.
Proof.
  unfold next_state. simpl.
  destruct (Z.eqb_spec st 0) as [->|N]; reflexivity.
Qed.

Lemma next_state_uint16 (r : bool) (st : Z) :
  is_uint16 st -> is_uint16 (next_state r st).
Proof.
  unfold is_uint16. intros H. destruct r.
  - change true with HIGH. rewrite next_state_inactive.
    destruct (st =? 0); [lia|]. destruct (st =? 0xffff); lia.
  - change false with LOW. unfold next_state. simpl.
    destruct (Z.ltb_spec st 0xfffe).
    + unfold uint16. apply Z.mod_pos_bound. lia.
    + destruct (st =? 0xfffe); lia.
Qed.

Lemma sample_uint16 (b : Button) (r : bool) (now : Z) :
  is_uint16 (state b) -> is_uint16 (state (sample r now b)).
Proof.
  intros H. destruct (settled r now now b) eqn:E.
  - rewrite (sample_state_settled b r now E). now apply next_state_uint16.
  - rewrite (sample_state_unsettled b r now E). exact H.
Qed.





(** The nominal run: one poll with [pressed()], then [held()], one poll
    with [released()], then nothing. *)
Example press_hold_release_observed :
  map observe (trace press_hold_release button) =
  [ (false, false, false); (true, false, false); (false, true, false);
    (false, true, false); (false, true, false); (false, false, true);
    (false, false, false) ].
Proof. reflexivity. Qed.

(** The values of [state] along a press, a release and a new press that
    follows the release by one poll. *)
Example press_release_press_states :
  map state (trace (press_release_press ++ [(LOW, 143)]) button) =
  [0; 1; 1; 0xffff; 0xffff; 0xffff].
Proof. reflexivity. Qed.

End ButtonFacts.

Section ButtonClaims.

(** The claim C3 fails on the code at the released sentinel.  After a
    press and a release the button reports [released()]; when the next
    readings are active again, the settled active reading at 143 ms finds
    [state = 0xffff], for which the active branch has no assignment:
    [state] stays [0xffff] instead of becoming [2]. *)
Lemma sentinel_not_reset :
  released (samples press_release_press button) = true /\
  settled LOW 143 143 (samples press_release_press button) = true /\
  state (sample LOW 143 (samples press_release_press button)) = 0xffff /\
  state (sample LOW 143 (samples press_release_press button)) <> 2.
Proof. repeat split; try reflexivity; discriminate. Qed.

(** C3, amended.  On a settled reading that is active, [state] is
    incremented while [state < 0xfffe], so it never reaches the released
    sentinel [0xffff] and never overflows; when [state] is [0xfffe], the
    largest held value, one below the sentinel, it is reset to [2]: the
    held counter starts over as a held run, not as a fresh press. *)
Theorem active_settled_step (b : Button) (now : Z) :
  is_uint16 (state b) ->
  settled LOW now now b = true ->
  (state b < 0xfffe ->
     state (sample LOW now b) = state b + 1 /\
     state (sample LOW now b) < 0xffff) /\
  (state b = 0xfffe -> state (sample LOW now b) = 2).
Proof.
  intros U S. rewrite (sample_state_settled b LOW now S).
  unfold is_uint16 in U. split.
  - intros L. rewrite next_state_active by lia. lia.
  - intros ->. apply next_state_wrap.
Qed.

Lemma active_settled_step_witness :
  state (sample LOW 150 (samples press button)) = 2 /\
  state (sample LOW 150 held_long) = 2.
Proof.
  assert (U1 : is_uint16 (state (samples press button)))
    by (vm_compute; split; [discriminate | reflexivity]).
  assert (U2 : is_uint16 (state held_long))
    by (vm_compute; split; [discriminate | reflexivity]).
  destruct (active_settled_step (samples press button) 150 U1 eq_refl)
    as [H1 _].
  destruct (active_settled_step held_long 150 U2 eq_refl) as [_ H2].
  split; [exact (proj1 (H1 eq_refl)) | exact (H2 eq_refl)].
Defined.






(** C6.  On every call, [lastReading] becomes the raw level read; and
    whenever that level is not the last one, [lastDebounceTime] becomes
    the current time, whether or not the delay has elapsed: the
    assignment is made before, and outside, the settle test.  With
    [read], the time stored is the one [millis()] returns at the
    assignment. *)
Theorem sample_records_reading (b : Button) (rawLevel : bool) (now : Z) :
  lastReading (sample rawLevel now b) = rawLevel /\
  (rawLevel <> lastReading b ->
     lastDebounceTime (sample rawLevel now b) = now) /\
  (forall t_change t_check : Z,
      lastReading (read rawLevel t_change t_check b) = rawLevel /\
      (rawLevel <> lastReading b ->
         lastDebounceTime (read rawLevel t_change t_check b) = t_change)).
Proof.
  split; [reflexivity|]. split.
  - intros H. exact (settle_timer_changed b rawLevel now H).
  - intros t_change t_check. split; [reflexivity|].
    intros H. exact (settle_timer_changed b rawLevel t_change H).
Qed.

Lemma sample_records_reading_witness :
  lastDebounceTime (sample LOW 5 button) = 5 /\
  lastDebounceTime (sample HIGH 120 (samples press button)) = 120.
Proof.
  split.
  - apply (sample_records_reading button LOW 5). discriminate.
  - apply (sample_records_reading (samples press button) HIGH 120).
    discriminate.
Defined.

End ButtonClaims.

(* ------------------------------------------------------------------ *)
(** * More on the comparisons *)
(* ------------------------------------------------------------------ *)

Module F32Order.
Import F32 F32Facts.

(** The comparison of two finite values of the same sign, read on the
    exponents and the mantissas. *)
Ltac order_cases :=
  repeat match goal with
  | |- context [Pos.compare_cont Eq ?a ?b] =>
      change (Pos.compare_cont Eq a b) with (Pos.compare a b)
  | H : context [Pos.compare_cont Eq ?a ?b] |- _ =>
      change (Pos.compare_cont Eq a b) with (Pos.compare a b) in H
  end;
  repeat match goal with
  | H : context [Z.compare ?a ?b] |- _ =>
      destruct (Z.compare_spec a b); simpl in H; try discriminate H
  | H : context [Pos.compare ?a ?b] |- _ =>
      destruct (Pos.compare_spec a b); simpl in H; try discriminate H
  end;
  repeat match goal with
  | |- context [Z.compare ?a ?b] =>
      destruct (Z.compare_spec a b); simpl; try reflexivity; try lia
  | |- context [Pos.compare ?a ?b] =>
      destruct (Pos.compare_spec a b); simpl; try reflexivity; try lia
  end.

(** [x < y] and [y <= z] give [x < z]. *)
Lemma ltb_leb_trans (x y z : float) :
  ltb x y = true -> leb y z = true -> ltb x z = true.
Proof.
  unfold ltb, leb, SFltb, SFleb.
  destruct x as [s1|s1| |s1 m1 e1], y as [s2|s2| |s2 m2 e2],
           z as [s3|s3| |s3 m3 e3];
    try destruct s1; try destruct s2; try destruct s3; simpl;
    try discriminate; try reflexivity; intros H1 H2;
    order_cases; subst; try lia; try reflexivity.
Qed.

End F32Order.

(* ------------------------------------------------------------------ *)
(** * More on the axis device *)
(* ------------------------------------------------------------------ *)

Section DeviceMore.
Import F32 F32Facts F32Order.

(** The conditions of [setPosition] do not look at the position. *)
Lemma setPosition_with_position (t p : float) (d : Device) :
  setPosition t (with_position p d) =
  if ltb t zero then with_position zero d
  else if leb t (limit d) && geb t zero then with_position t d
  else if gtb t (limit d) then with_position (limit d) d
  else with_position p d.
Proof.
  unfold setPosition. simpl.
  destruct (ltb t zero); [reflexivity|].
  destruct (leb t (limit d) && geb t zero); [reflexivity|].
  destruct (gtb t (limit d)); reflexivity.
Qed.

(** On an ordered target and an ordered limit, one of the three
    assignments is made. *)
Lemma setPosition_writes (t : float) (d : Device) :
  is_nan t = false -> is_nan (limit d) = false ->
  exists p, forall q, setPosition t (with_position q d) = with_position p d.
Proof.
  intros Ht Hl.
  destruct (ltb t zero) eqn:E1.
  - exists zero. intros q. rewrite setPosition_with_position, E1. reflexivity.
  - destruct (ltb_zero_or_geb t Ht) as [C|G]; [congruence|].
    destruct (leb_or_gtb t (limit d) Ht Hl) as [L|L].
    + exists t. intros q.
      rewrite setPosition_with_position, E1, L, G. reflexivity.
    + exists (limit d). intros q.
      rewrite setPosition_with_position, E1, (gtb_not_leb _ _ L), L.
      reflexivity.
Qed.

Lemma with_position_self (d : Device) : with_position (currentPosition d) d = d.
Proof. destruct d; reflexivity. Qed.

(** X1.  [setPosition] is idempotent: asking twice for the same target,
    whatever it is (NaN and the infinities included) and whatever the
    device, gives the state of asking once. *)
Theorem setPosition_idempotent (t : float) (d : Device) :
  setPosition t (setPosition t d) = setPosition t d.
Proof.
  rewrite <- (with_position_self d) at 1 2.
  rewrite !setPosition_with_position.
  destruct (ltb t zero) eqn:E1.
  - rewrite setPosition_with_position, E1. reflexivity.
  - destruct (leb t (limit d) && geb t zero) eqn:E2.
    + rewrite setPosition_with_position, E1, E2. reflexivity.
    + destruct (gtb t (limit d)) eqn:E3.
      * rewrite setPosition_with_position, E1, E2, E3. reflexivity.
      * rewrite setPosition_with_position, E1, E2, E3. reflexivity.
Qed.

(** X2.  The last request wins: when the second target and the limit are
    ordered values (not NaN), the position that [setPosition] leaves does
    not depend on an earlier [setPosition]. *)
Theorem setPosition_last_wins (t1 t2 : float) (d : Device) :
  is_nan t2 = false ->
  is_nan (getLimit d) = false ->
  setPosition t2 (setPosition t1 d) = setPosition t2 d.
Proof.
  intros H2 Hl. destruct (setPosition_writes t2 d H2 Hl) as [p Hp].
  rewrite <- (with_position_self d) at 2. rewrite Hp.
  destruct (setPosition_cases d t1) as [E|[[E _]|[E|E]]]; rewrite E.
  - apply Hp.
  - apply Hp.
  - apply Hp.
  - rewrite <- (with_position_self d) at 1. apply Hp.
Qed.

Lemma setPosition_last_wins_witness :
  setPosition (of_Z 2000) (setPosition (of_Z 7) d42) =
  setPosition (of_Z 2000) d42.
Proof.
  apply (setPosition_last_wins (of_Z 7) (of_Z 2000) d42); reflexivity.
Defined.

(** X3.  Asking for the position the device already has changes nothing,
    on every device in range. *)
Theorem setPosition_current (d : Device) :
  in_range d -> setPosition (getPosition d) d = d.
Proof.
  intros [H0 H1].
  rewrite (setPosition_inside d (getPosition d) H0 H1).
  apply with_position_self.
Qed.

Lemma setPosition_current_witness : setPosition (getPosition d42) d42 = d42.
Proof. apply (setPosition_current d42). split; reflexivity. Defined.

(** X4.  Clamping is monotone: on a device whose limit is not negative,
    [t1 <= t2] gives positions in the same order. *)
Theorem setPosition_monotone (t1 t2 : float) (d : Device) :
  leb zero (getLimit d) = true ->
  leb t1 t2 = true ->
  leb (getPosition (setPosition t1 d)) (getPosition (setPosition t2 d)) = true.
Proof.
  unfold getLimit, getPosition. intros Hl H.
  pose proof (leb_not_nan_l _ _ H) as N1.
  pose proof (leb_not_nan_r _ _ H) as N2.
  pose proof (leb_not_nan_r _ _ Hl) as Nl.
  destruct (ltb t1 zero) eqn:A1.
  - rewrite (setPosition_negative d t1 A1). simpl.
    destruct (ltb t2 zero) eqn:A2.
    + rewrite (setPosition_negative d t2 A2). reflexivity.
    + destruct (ltb_zero_or_geb t2 N2) as [C|G]; [congruence|].
      destruct (leb_or_gtb t2 (limit d) N2 Nl) as [L|L].
      * rewrite (setPosition_inside d t2 G L). exact G.
      * rewrite (setPosition_above d t2 A2 L). exact Hl.
  - destruct (ltb_zero_or_geb t1 N1) as [C|G1]; [congruence|].
    pose proof (leb_zero_trans _ _ G1 H) as G2.
    assert (A2 : ltb t2 zero = false).
    { destruct (ltb t2 zero) eqn:A2; [|reflexivity].
      apply ltb_zero_not_geb in A2. unfold geb in A2. unfold leb in G2.
      congruence. }
    destruct (leb_or_gtb t1 (limit d) N1 Nl) as [L1|L1].
    + rewrite (setPosition_inside d t1 G1 L1). simpl.
      destruct (leb_or_gtb t2 (limit d) N2 Nl) as [L2|L2].
      * rewrite (setPosition_inside d t2 G2 L2). exact H.
      * rewrite (setPosition_above d t2 A2 L2). exact L1.
    + rewrite (setPosition_above d t1 A1 L1). simpl.
      pose proof (ltb_leb_trans _ _ _ L1 H) as L2.
      rewrite (setPosition_above d t2 A2 L2). simpl.
      apply leb_refl. exact Nl.
Qed.

Lemma setPosition_monotone_witness :
  leb (getPosition (setPosition (of_Z (-5)) d42))
      (getPosition (setPosition (of_Z 2000) d42)) = true.
Proof.
  apply (setPosition_monotone (of_Z (-5)) (of_Z 2000) d42); reflexivity.
Defined.

(** X5.  After a sequence of operations the device is homed exactly when
    it was homed before or the sequence holds a [homeAxis]: nothing else
    sets the flag and nothing clears it. *)
Theorem run_homed_iff (ops : list Op) :
  forall d : Device,
    isHomed (run ops d) = isHomed d || existsb is_home ops.
Proof.
  induction ops as [|o ops IH]; intros d; simpl.
  - symmetry. apply orb_false_r.
  - unfold run in IH. rewrite IH. destruct o; simpl.
    + destruct (setPosition_frame d newPosition) as [E _].
      unfold isHomed. rewrite E. reflexivity.
    + symmetry. apply orb_true_r.
Qed.

(** X6.  Every device that the constructor and the two operations can
    produce keeps the limit [1000] and a position in [0, 1000]. *)
Theorem reachable_in_range (ops : list Op) :
  getLimit (run ops Device_new) = of_Z 1000 /\
  leb zero (getPosition (run ops Device_new)) = true /\
  leb (getPosition (run ops Device_new)) (of_Z 1000) = true.
Proof.
  destruct (reachable_limit ops) as [E [H0 H1]].
  rewrite E in H1. repeat split; assumption.
Qed.

End DeviceMore.

(* ------------------------------------------------------------------ *)
(** * More on the button *)
(* ------------------------------------------------------------------ *)

Section ButtonMore.

Lemma sample_active_settled (b : Button) (now : Z) :
  lastReading b = LOW ->
  DEBOUNCE_DELAY < uint32 (now - lastDebounceTime b) ->
  settled LOW now now b = true /\
  lastReading (sample LOW now b) = LOW /\
  lastDebounceTime (sample LOW now b) = lastDebounceTime b.
Proof.
  intros L W.
  assert (T : settle_timer LOW now b = lastDebounceTime b)
    by (apply settle_timer_same; symmetry; exact L).
  split; [|split].
  - unfold settled. rewrite T. now apply Z.ltb_lt.
  - reflexivity.
  - exact T.
Qed.

(** X7.  The three predicates exclude one another, and on a [uint16_t]
    state one of them holds exactly when [state] is not [0]; [held] with a
    larger count implies [held] with a smaller one. *)
Theorem predicates_exclusive (b : Button) (count count' : Z) :
  is_uint16 (state b) ->
  0 <= count <= count' ->
  pressed b && released b = false /\
  pressed b && held count b = false /\
  held count b && released b = false /\
  pressed b || held 0 b || released b = negb (state b =? 0) /\
  (held count' b = true -> held count b = true).
Proof.
  unfold is_uint16, pressed, released, held. intros U C.
  repeat split.
  - destruct (Z.eqb_spec (state b) 1) as [E|E]; [rewrite E|]; reflexivity.
  - destruct (Z.eqb_spec (state b) 1) as [E|E]; [|reflexivity].
    destruct (Z.ltb_spec (1 + count) (state b)); [lia|reflexivity].
  - destruct (Z.ltb_spec (state b) 0xffff) as [L|L].
    + destruct (Z.eqb_spec (state b) 0xffff); [lia|apply andb_false_r].
    + rewrite andb_false_r. reflexivity.
  - destruct (Z.eqb_spec (state b) 1), (Z.eqb_spec (state b) 0xffff),
             (Z.eqb_spec (state b) 0), (Z.ltb_spec (1 + 0) (state b)),
             (Z.ltb_spec (state b) 0xffff); try reflexivity; lia.
  - intros H. apply andb_true_iff in H. destruct H as [H1 H2].
    apply Z.ltb_lt in H1. apply andb_true_iff. split; [|exact H2].
    apply Z.ltb_lt. lia.
Qed.

Lemma predicates_exclusive_witness :
  held 3 (samples hold touched) = false /\
  pressed (samples hold touched) || held 0 (samples hold touched)
    || released (samples hold touched) = true.
Proof.
  assert (U : is_uint16 (state (samples hold touched)))
    by (vm_compute; split; [discriminate | reflexivity]).
  assert (C : 0 <= 0 <= 3) by (split; discriminate).
  destruct (predicates_exclusive (samples hold touched) 0 3 U C)
    as (_ & _ & _ & E & _).
  split; [reflexivity | exact E].
Defined.





(** During a hold the timer and the last reading stay as they are. *)
Lemma holding_samples (l : list (bool * Z)) :
  forall b : Button,
    lastReading b = LOW ->
    holding (lastDebounceTime b) l ->
    lastReading (samples l b) = LOW /\
    lastDebounceTime (samples l b) = lastDebounceTime b.
Proof.
  induction l as [|[r now] l IH]; intros b L H; [split; auto|].
  inversion H as [|s l' [R W] H']; subst. simpl in R, W. subst r.
  destruct (sample_active_settled b now L W) as (_ & L1 & T1).
  change (samples ((LOW, now) :: l) b) with (samples l (sample LOW now b)).
  destruct (IH (sample LOW now b) L1) as [A B];
    [rewrite T1; exact H'|].
  split; [exact A | rewrite B; exact T1].
Qed.

(** X10.  The held counter counts the polls of a hold: after [n] settled
    active samples [state] has grown by [n], as long as it stays below
    the wrap at [0xfffe]; so, from the released state, [held(count)]
    holds exactly when more than [count + 1] such samples were taken. *)
Theorem hold_counts (l : list (bool * Z)) :
  forall b : Button,
    lastReading b = LOW ->
    holding (lastDebounceTime b) l ->
    0 <= state b ->
    state b + Z.of_nat (List.length l) <= 0xfffe ->
    state (samples l b) = state b + Z.of_nat (List.length l) /\
    (state b = 0 ->
     forall count : Z,
       held count (samples l b) = (1 + count <? Z.of_nat (List.length l))).
Proof.
  assert (G : forall (l : list (bool * Z)) (b : Button),
             lastReading b = LOW ->
             holding (lastDebounceTime b) l ->
             0 <= state b ->
             state b + Z.of_nat (List.length l) <= 0xfffe ->
             state (samples l b) = state b + Z.of_nat (List.length l)).
  { clear l. induction l as [|[r now] l IH]; intros b L H P B.
    - simpl. lia.
    - inversion H as [|s l' [R W] H']; subst. simpl in R, W. subst r.
      destruct (sample_active_settled b now L W) as (St & L1 & T1).
      change (List.length ((LOW, now) :: l)) with (S (List.length l)) in *.
      rewrite Nat2Z.inj_succ in *.
      assert (E : state (sample LOW now b) = state b + 1).
      { rewrite (sample_state_settled b LOW now St).
        apply next_state_active. lia. }
      change (samples ((LOW, now) :: l) b)
        with (samples l (sample LOW now b)).
      rewrite (IH (sample LOW now b) L1); [lia | | lia | lia].
      rewrite T1. exact H'. }
  intros b L H P B. split; [now apply G|].
  intros Z0 count. unfold held. rewrite (G l b L H P B), Z0.
  rewrite Z0 in B. simpl Z.add.
  destruct (Z.ltb_spec (Z.of_nat (List.length l)) 0xffff) as [A|A]; [|lia].
  apply andb_true_r.
Qed.

Lemma hold_counts_witness :
  state (samples hold touched) = 3 /\
  held 1 (samples hold touched) = true.
Proof.
  assert (H : holding (lastDebounceTime touched) hold)
    by (repeat constructor).
  assert (P : 0 <= state touched) by discriminate.
  assert (B : state touched + Z.of_nat (List.length hold) <= 0xfffe)
    by discriminate.
  destruct (hold_counts hold touched eq_refl H P B) as [E F].
  split; [exact E | exact (F eq_refl 1)].
Defined.

(** Settled active samples keep a pressed or held button held. *)
Lemma holding_keeps_held (l : list (bool * Z)) :
  forall b : Button,
    lastReading b = LOW ->
    holding (lastDebounceTime b) l ->
    1 <= state b <= 0xfffe ->
    Forall (fun b' => pressed b' = false /\ released b' = false /\
                      held 0 b' = true)
           (trace l b).
Proof.
  induction l as [|[r now] l IH]; intros b L H B; [constructor|].
  inversion H as [|s l' [R W] H']; subst. simpl in R, W. subst r.
  destruct (sample_active_settled b now L W) as (S & L1 & T1).
  change (trace ((LOW, now) :: l) b)
    with (sample LOW now b :: trace l (sample LOW now b)).
  assert (E : 2 <= state (sample LOW now b) <= 0xfffe).
  { rewrite (sample_state_settled b LOW now S).
    destruct (Z.eq_dec (state b) 0xfffe) as [Q|Q].
    - rewrite Q. rewrite next_state_wrap. lia.
    - rewrite next_state_active by lia. lia. }
  constructor.
  - unfold pressed, released, held.
    destruct (Z.eqb_spec (state (sample LOW now b)) 1); [lia|].
    destruct (Z.eqb_spec (state (sample LOW now b)) 0xffff); [lia|].
    destruct (Z.ltb_spec (1 + 0) (state (sample LOW now b))); [|lia].
    destruct (Z.ltb_spec (state (sample LOW now b)) 0xffff); [|lia].
    repeat split.
  - apply IH; [exact L1 | rewrite T1; exact H' | lia].
Qed.

(** X11.  A hold gives one press edge only.  Once [state] is at least
    [1], settled active samples keep the button held however long they
    go on: [pressed()] and [released()] are false after every one of
    them, since the counter wraps from [0xfffe] to [2], not to [1]. *)
Theorem hold_single_press (l : list (bool * Z)) (b : Button) :
  lastReading b = LOW ->
  holding (lastDebounceTime b) l ->
  1 <= state b <= 0xfffe ->
  Forall (fun b' => pressed b' = false /\ released b' = false /\
                    held 0 b' = true)
         (trace l b).
Proof. apply holding_keeps_held. Qed.

Lemma hold_single_press_witness :
  Forall (fun b' => pressed b' = false /\ released b' = false /\
                    held 0 b' = true)
         (trace [(LOW, 112); (LOW, 500)] (sample LOW 111 touched)).
Proof.
  apply (hold_single_press [(LOW, 112); (LOW, 500)] (sample LOW 111 touched)).
  - reflexivity.
  - repeat constructor.
  - split; discriminate.
Defined.

(** X12.  At the released sentinel an active level changes nothing:
    whatever the times of the samples, [released()] stays true as long as
    every sample reads the active level. *)
Theorem sentinel_stays_while_active (l : list (bool * Z)) :
  forall b : Button,
    released b = true ->
    all_active l ->
    Forall (fun b' => released b' = true) (trace l b).
Proof.
  induction l as [|[r now] l IH]; intros b R H; [constructor|].
  inversion H as [|s l' A H']; subst. simpl in A. subst r.
  change (trace ((LOW, now) :: l) b)
    with (sample LOW now b :: trace l (sample LOW now b)).
  assert (E : released (sample LOW now b) = true).
  { unfold released in *. apply Z.eqb_eq in R. apply Z.eqb_eq.
    destruct (settled LOW now now b) eqn:S.
    - rewrite (sample_state_settled b LOW now S), R. reflexivity.
    - rewrite (sample_state_unsettled b LOW now S). exact R. }
  constructor; [exact E|]. apply IH; [exact E | exact H'].
Qed.

Lemma sentinel_stays_while_active_witness :
  Forall (fun b' => released b' = true)
         (trace [(LOW, 132); (LOW, 143); (LOW, 9000)]
                (samples press_release button)).
Proof.
  apply (sentinel_stays_while_active
           [(LOW, 132); (LOW, 143); (LOW, 9000)]
           (samples press_release button)).
  - reflexivity.
  - repeat constructor.
Defined.

(** X13.  The settle test measures the elapsed time across a wrap of the
    32-bit clock: when the level is unchanged and the clock shows the
    time of the last change plus [d] modulo [2^32], the input counts as
    settled exactly when [d] is more than [DEBOUNCE_DELAY]. *)
Theorem settled_across_wrap (b : Button) (r : bool) (d : Z) :
  r = lastReading b ->
  0 <= d < 2 ^ 32 ->
  settled r (uint32 (lastDebounceTime b + d))
            (uint32 (lastDebounceTime b + d)) b = (DEBOUNCE_DELAY <? d).
Proof.
  intros R D. unfold settled.
  rewrite (settle_timer_same b r _ R). unfold uint32.
  rewrite Zminus_mod_idemp_l.
  replace (lastDebounceTime b + d - lastDebounceTime b) with d by lia.
  rewrite Z.mod_small by exact D. reflexivity.
Qed.

Lemma settled_across_wrap_witness :
  settled LOW 5 5 (mkButton BTN_PIN LOW 4294967290 1) = true.
Proof.
  assert (D : 0 <= 11 < 2 ^ 32) by (split; [discriminate | reflexivity]).
  exact (settled_across_wrap (mkButton BTN_PIN LOW 4294967290 1) LOW 11
                             eq_refl D).
Defined.

End ButtonMore.

(* ------------------------------------------------------------------ *)
(** * The loop, the button and the LED *)
(* ------------------------------------------------------------------ *)

Section LoopFacts.

(** One pass of [loop], field by field. *)
Lemma loop_eq (r : bool) (tc tk tb : Z) (g : Main.Globals) :
  Main.loop r tc tk tb g =
  let b' := read r tc tk (Main.button g) in
  let on' := xorb (Led.on (Main.led g)) (pressed b') in
  let led' := Led.mk (Led.pin (Main.led g)) on' in
  let onboard' :=
    Led.mk (Led.pin (Main.onboard_led g)) (tb mod 1000 <? 50) in
  Main.mkGlobals
    (Main.currentPositionSteps g) (Main.currentPosition g)
    (Main.stepsToMilimeters g) (Main.isHomed g)
    onboard' led' b'
    (Led.update onboard' (Led.update led' (Main.gpio g)))
    (Main.sent g ++ if pressed b' then [status_doc on'] else []).
Proof.
  unfold Main.loop. cbv zeta. cbn [Main.button Main.set_button].
  destruct (pressed (read r tc tk (Main.button g))) eqn:E;
    destruct g as [a b c d e [lp lo] f h i]; cbn;
    rewrite ?app_nil_r; destruct lo; reflexivity.
Qed.

Lemma tick_button (g : Main.Globals) (s : bool * Z) :
  Main.button (Main.tick g s) = feed (Main.button g) s.
Proof. unfold Main.tick. rewrite loop_eq. reflexivity. Qed.

(** A pass after which [pressed()] is false leaves the LED and the
    clients alone. *)
Lemma tick_quiet (g : Main.Globals) (s : bool * Z) :
  pressed (feed (Main.button g) s) = false ->
  Main.led (Main.tick g s) = Main.led g /\
  Main.sent (Main.tick g s) = Main.sent g.
Proof.
  intros P. unfold Main.tick. rewrite loop_eq. cbv zeta.
  change (read (fst s) (snd s) (snd s) (Main.button g))
    with (feed (Main.button g) s).
  rewrite P. cbn. rewrite app_nil_r, xorb_false_r.
  destruct (Main.led g); split; reflexivity.
Qed.

(** A pass after which [pressed()] is true toggles the LED and tells the
    clients. *)
Lemma tick_press (g : Main.Globals) (s : bool * Z) :
  pressed (feed (Main.button g) s) = true ->
  Main.led (Main.tick g s) =
    Led.mk (Led.pin (Main.led g)) (negb (Led.on (Main.led g))) /\
  Main.sent (Main.tick g s) =
    Main.sent g ++ [status_doc (negb (Led.on (Main.led g)))].
Proof.
  intros P. unfold Main.tick. rewrite loop_eq. cbv zeta.
  change (read (fst s) (snd s) (snd s) (Main.button g))
    with (feed (Main.button g) s).
  rewrite P. cbn. rewrite xorb_true_r. split; reflexivity.
Qed.

Lemma ticks_quiet (l : list (bool * Z)) :
  forall g : Main.Globals,
    Forall (fun b' => pressed b' = false) (trace l (Main.button g)) ->
    Main.led (Main.ticks l g) = Main.led g /\
    Main.sent (Main.ticks l g) = Main.sent g.
Proof.
  induction l as [|s l IH]; intros g H; [split; reflexivity|].
  change (Main.ticks (s :: l) g) with (Main.ticks l (Main.tick g s)).
  change (trace (s :: l) (Main.button g))
    with (feed (Main.button g) s :: trace l (feed (Main.button g) s)) in H.
  inversion H as [|x xs P H']; subst.
  destruct (tick_quiet g s P) as [E1 E2].
  destruct (IH (Main.tick g s)) as [F1 F2];
    [rewrite tick_button; exact H'|].
  split; congruence.
Qed.

Lemma xorb_odd_succ (a : bool) (n : nat) :
  xorb a (Nat.odd (S n)) = xorb (negb a) (Nat.odd n).
Proof.
  rewrite Nat.odd_succ, <- Nat.negb_odd.
  destruct a, (Nat.odd n); reflexivity.
Qed.

(** X14.  The LED follows the press edges of the button: after a run of
    passes of [loop], the LED has been toggled once for every pass that
    ended with [pressed()] true, and the clients have been sent one text
    for each of them. *)
Theorem led_follows_presses (l : list (bool * Z)) :
  forall g : Main.Globals,
    Main.button (Main.ticks l g) = samples l (Main.button g) /\
    Led.on (Main.led (Main.ticks l g)) =
      xorb (Led.on (Main.led g)) (Nat.odd (presses l (Main.button g))) /\
    List.length (Main.sent (Main.ticks l g)) =
      (List.length (Main.sent g) + presses l (Main.button g))%nat.
Proof.
  induction l as [|s l IH]; intros g.
  - cbn. rewrite xorb_false_r, Nat.add_0_r. repeat split.
  - change (Main.ticks (s :: l) g) with (Main.ticks l (Main.tick g s)).
    change (samples (s :: l) (Main.button g))
      with (samples l (feed (Main.button g) s)).
    destruct (IH (Main.tick g s)) as (B & O & N).
    rewrite tick_button in B, O, N.
    split; [exact B|]. rewrite O, N.
    unfold presses.
    change (trace (s :: l) (Main.button g))
      with (feed (Main.button g) s :: trace l (feed (Main.button g) s)).
    cbn [filter].
    destruct (pressed (feed (Main.button g) s)) eqn:P.
    + destruct (tick_press g s P) as [E1 E2]. rewrite E1, E2.
      cbn [Led.on List.length]. rewrite xorb_odd_succ, length_app.
      cbn [List.length]. split; [reflexivity | lia].
    + destruct (tick_quiet g s P) as [E1 E2]. rewrite E1, E2.
      split; reflexivity.
Qed.



(** X16.  A press toggles the LED once, however long it is held: from a
    released button that has seen the level go active, a hold of one or
    more settled active samples leaves the LED inverted and exactly one
    text, the new status, sent to the clients. *)
Theorem press_toggles_once (l : list (bool * Z)) (g : Main.Globals) :
  state (Main.button g) = 0 ->
  lastReading (Main.button g) = LOW ->
  holding (lastDebounceTime (Main.button g)) l ->
  l <> [] ->
  Led.on (Main.led (Main.ticks l g)) = negb (Led.on (Main.led g)) /\
  Main.sent (Main.ticks l g) =
    Main.sent g ++ [status_doc (negb (Led.on (Main.led g)))].
Proof.
  intros Z0 L H N. destruct l as [|[r now] l]; [contradiction|].
  inversion H as [|s l' [R W] H']; subst. simpl in R, W. subst r.
  destruct (sample_active_settled (Main.button g) now L W) as (S & L1 & T1).
  assert (E : state (sample LOW now (Main.button g)) = 1).
  { rewrite (sample_state_settled _ _ _ S), Z0. reflexivity. }
  assert (P : pressed (feed (Main.button g) (LOW, now)) = true).
  { unfold pressed, feed. simpl fst. simpl snd. rewrite E. reflexivity. }
  change (Main.ticks ((LOW, now) :: l) g)
    with (Main.ticks l (Main.tick g (LOW, now))).
  destruct (tick_press g (LOW, now) P) as [E1 E2].
  destruct (ticks_quiet l (Main.tick g (LOW, now))) as [F1 F2].
  { rewrite tick_button.
    eapply Forall_impl;
      [|apply (holding_keeps_held l (sample LOW now (Main.button g)) L1)].
    - intros b [Q _]. exact Q.
    - rewrite T1. exact H'.
    - rewrite E. lia. }
  rewrite F1, F2, E1, E2. split; reflexivity.
Qed.

Lemma press_toggles_once_witness :
  Led.on (Main.led (Main.ticks hold (Main.tick g0 (LOW, 100)))) = true /\
  Main.sent (Main.ticks hold (Main.tick g0 (LOW, 100))) = [status_doc true].
Proof.
  apply (press_toggles_once hold (Main.tick g0 (LOW, 100))).
  - reflexivity.
  - reflexivity.
  - repeat constructor.
  - discriminate.
Defined.

End LoopFacts.

Section LoopMore.

(** X17.  A raw change on the pass after a press edge toggles the LED a
    second time: when [pressed()] is still true from the pass before and
    the level read has changed, with the two calls of [millis()] no more
    than [DEBOUNCE_DELAY] apart, [state] is left at [1], so the LED is
    inverted again and the clients are told again. *)
Theorem unsettled_pass_toggles_again
    (r : bool) (t_change t_check t_blink : Z) (g : Main.Globals) :
  pressed (Main.button g) = true ->
  r <> lastReading (Main.button g) ->
  uint32 (t_check - t_change) <= DEBOUNCE_DELAY ->
  pressed (Main.button (Main.loop r t_change t_check t_blink g)) = true /\
  Led.on (Main.led (Main.loop r t_change t_check t_blink g)) =
    negb (Led.on (Main.led g)) /\
  Main.sent (Main.loop r t_change t_check t_blink g) =
    Main.sent g ++ [status_doc (negb (Led.on (Main.led g)))].
Proof.
  intros P C W.
  assert (E : state (read r t_change t_check (Main.button g)) =
              state (Main.button g)).
  { unfold read, settled. simpl.
    rewrite (settle_timer_changed (Main.button g) r t_change C).
    destruct (Z.ltb_spec DEBOUNCE_DELAY (uint32 (t_check - t_change)));
      [lia | reflexivity]. }
  assert (P' : pressed (read r t_change t_check (Main.button g)) = true).
  { unfold pressed in *. rewrite E. exact P. }
  rewrite loop_eq. cbv zeta. rewrite P'. cbn. rewrite xorb_true_r.
  repeat split. exact P'.
Qed.

Lemma unsettled_pass_toggles_again_witness :
  Led.on (Main.led (Main.loop HIGH 112 112 112 (Main.ticks press g0))) =
  negb (Led.on (Main.led (Main.ticks press g0))).
Proof.
  assert (W : uint32 (112 - 112) <= DEBOUNCE_DELAY) by discriminate.
  assert (C : HIGH <> lastReading (Main.button (Main.ticks press g0)))
    by discriminate.
  exact (proj1 (proj2 (unsettled_pass_toggles_again
                         HIGH 112 112 112 (Main.ticks press g0)
                         eq_refl C W))).
Defined.

(** X18.  What [loop] drives on the pins.  After a pass, the pin of the
    on-board LED shows the heartbeat, high during the first 50 ms of
    every second; when the two LEDs are on different pins, the pin of the
    LED shows [led.on]; no other pin is written. *)
Theorem loop_drives_pins
    (r : bool) (t_change t_check t_blink : Z) (g : Main.Globals) :
  Main.gpio (Main.loop r t_change t_check t_blink g)
            (Led.pin (Main.onboard_led g)) = (t_blink mod 1000 <? 50) /\
  (Led.pin (Main.led g) <> Led.pin (Main.onboard_led g) ->
   Main.gpio (Main.loop r t_change t_check t_blink g)
             (Led.pin (Main.led g)) =
     Led.on (Main.led (Main.loop r t_change t_check t_blink g))) /\
  (forall q : Z,
      q <> Led.pin (Main.led g) -> q <> Led.pin (Main.onboard_led g) ->
      Main.gpio (Main.loop r t_change t_check t_blink g) q = Main.gpio g q).
Proof.
  rewrite loop_eq. cbv zeta.
  cbn [Main.gpio Main.led Main.onboard_led Led.on Led.pin].
  unfold Led.update, Led.digitalWrite. cbn [Led.on Led.pin].
  split; [|split].
  - rewrite Z.eqb_refl. destruct (t_blink mod 1000 <? 50); reflexivity.
  - intros D.
    destruct (Z.eqb_spec (Led.pin (Main.led g))
                         (Led.pin (Main.onboard_led g))) as [E|_];
      [contradiction|].
    rewrite Z.eqb_refl.
    destruct (xorb _ _); reflexivity.
  - intros q Q1 Q2.
    destruct (Z.eqb_spec q (Led.pin (Main.onboard_led g))); [contradiction|].
    destruct (Z.eqb_spec q (Led.pin (Main.led g))); [contradiction|].
    reflexivity.
Qed.

Lemma loop_drives_pins_witness :
  Main.gpio (Main.loop LOW 111 111 1020 (Main.tick g0 (LOW, 100)))
            Main.LED_PIN = true /\
  Main.gpio (Main.loop LOW 111 111 1020 (Main.tick g0 (LOW, 100))) 2 = true.
Proof.
  assert (D : Led.pin (Main.led (Main.tick g0 (LOW, 100))) <>
              Led.pin (Main.onboard_led (Main.tick g0 (LOW, 100))))
    by discriminate.
  destruct (loop_drives_pins LOW 111 111 1020 (Main.tick g0 (LOW, 100)))
    as (H1 & H2 & _).
  split; [exact (H2 D) | exact H1].
Defined.

End LoopMore.

(* ------------------------------------------------------------------ *)
(** * The WebSocket and the HTTP handlers *)
(* ------------------------------------------------------------------ *)

Section HandlerFacts.

Lemma frame_type_eqb_eq (a b : AwsFrameType) :
  frame_type_eqb a b = true <-> a = b.
Proof. destruct a, b; simpl; split; intros H; congruence. Qed.

(** The test that opens [handleWebSocketMessage]. *)
Lemma whole_text_frame_test (info : AwsFrameInfo) (length : Z) :
  final info && (index info =? 0) && (len info =? length)
    && frame_type_eqb (opcode info) WS_TEXT = true
  <-> whole_text_frame info length.
Proof.
  unfold whole_text_frame.
  rewrite !andb_true_iff, !Z.eqb_eq, frame_type_eqb_eq. tauto.
Qed.

Lemma toggle_notify (g : Main.Globals) :
  Main.led (Main.notifyClients (Main.toggle_led g)) =
    Led.mk (Led.pin (Main.led g)) (negb (Led.on (Main.led g))) /\
  Main.sent (Main.notifyClients (Main.toggle_led g)) =
    Main.sent g ++ [status_doc (negb (Led.on (Main.led g)))].
Proof. split; reflexivity. Qed.

Lemma socket_message_cases
    (info : AwsFrameInfo) (length : Z) (payload : Payload)
    (g g' : Main.Globals) :
  Main.handleWebSocketMessage info length payload g = Some g' ->
  g' = g \/
  (Led.on (Main.led g') = negb (Led.on (Main.led g)) /\
   Main.sent g' = Main.sent g ++ [status_doc (negb (Led.on (Main.led g)))]).
Proof.
  unfold Main.handleWebSocketMessage.
  destruct (final info && (index info =? 0) && (len info =? length)
            && frame_type_eqb (opcode info) WS_TEXT);
    [|intros E; left; congruence].
  destruct payload as [|[action|]];
    [intros E; left; congruence | | discriminate].
  destruct (String.eqb action "toggle");
    [|intros E; left; congruence].
  intros E. injection E as <-. right. split; reflexivity.
Qed.

(** X19.  [handleWebSocketMessage] acts on one kind of message only.
    When it returns, either the globals are unchanged, or the frame was a
    whole message in one text frame whose document has the action
    ["toggle"], the LED is inverted and the new status is sent.  It has
    no defined result only for such a frame whose document has no string
    ["action"]. *)
Theorem socket_message_effect
    (info : AwsFrameInfo) (length : Z) (payload : Payload)
    (g : Main.Globals) :
  (forall g' : Main.Globals,
      Main.handleWebSocketMessage info length payload g = Some g' ->
      g' = g \/
      (whole_text_frame info length /\
       payload = Document (Some "toggle"%string) /\
       Led.on (Main.led g') = negb (Led.on (Main.led g)) /\
       Main.sent g' =
         Main.sent g ++ [status_doc (negb (Led.on (Main.led g)))])) /\
  (Main.handleWebSocketMessage info length payload g = None <->
   whole_text_frame info length /\ payload = Document None).
Proof.
  unfold Main.handleWebSocketMessage.
  destruct (final info && (index info =? 0) && (len info =? length)
            && frame_type_eqb (opcode info) WS_TEXT) eqn:T.
  - apply whole_text_frame_test in T.
    destruct payload as [|[action|]].
    + split; [intros g' E; left; congruence|].
      split; [discriminate | intros [_ C]; discriminate].
    + destruct (String.eqb_spec action "toggle") as [->|N].
      * split.
        -- intros g' E. injection E as <-. right.
           destruct (toggle_notify g) as [E1 E2].
           rewrite E1, E2.
           split; [exact T|]. split; [reflexivity|]. split; reflexivity.
        -- split; [discriminate | intros [_ C]; discriminate].
      * split; [intros g' E; left; congruence|].
        split; [discriminate | intros [_ C]; discriminate].
    + split; [discriminate|]. split; [intros _; split; [exact T|reflexivity]
                                     | reflexivity].
  - split; [intros g' E; left; congruence|].
    split; [discriminate|].
    intros [W _]. apply whole_text_frame_test in W. congruence.
Qed.

Lemma socket_message_effect_witness :
  whole_text_frame text19 19 /\
  Led.on (Main.led (Main.notifyClients (Main.toggle_led g0))) =
    negb (Led.on (Main.led g0)).
Proof.
  destruct (socket_message_effect text19 19
              (Document (Some "toggle"%string)) g0) as [H _].
  destruct (H (Main.notifyClients (Main.toggle_led g0)) eq_refl)
    as [C|(W & _ & E & _)].
  - apply (f_equal (fun g => Led.on (Main.led g))) in C. discriminate C.
  - split; [exact W | exact E].
Defined.

(** X20.  Two toggle messages give the LED its state back and send the
    two statuses in turn. *)
Theorem socket_toggle_twice
    (info : AwsFrameInfo) (length : Z) (g : Main.Globals) :
  whole_text_frame info length ->
  exists g1 g2 : Main.Globals,
    Main.handleWebSocketMessage info length
      (Document (Some "toggle"%string)) g = Some g1 /\
    Main.handleWebSocketMessage info length
      (Document (Some "toggle"%string)) g1 = Some g2 /\
    Main.led g2 = Main.led g /\
    Main.sent g2 =
      Main.sent g ++ [status_doc (negb (Led.on (Main.led g)));
                      status_doc (Led.on (Main.led g))].
Proof.
  intros W. apply whole_text_frame_test in W.
  exists (Main.notifyClients (Main.toggle_led g)).
  exists (Main.notifyClients
            (Main.toggle_led (Main.notifyClients (Main.toggle_led g)))).
  unfold Main.handleWebSocketMessage. rewrite W. simpl String.eqb.
  split; [reflexivity|]. split; [reflexivity|].
  destruct (toggle_notify (Main.notifyClients (Main.toggle_led g)))
    as [E1 E2].
  destruct (toggle_notify g) as [F1 F2].
  rewrite E1, E2, F1, F2. cbn [Led.on Led.pin].
  rewrite negb_involutive, <- app_assoc.
  split; [destruct (Main.led g); reflexivity | reflexivity].
Qed.

Lemma socket_toggle_twice_witness :
  exists g1 g2 : Main.Globals,
    Main.handleWebSocketMessage text19 19
      (Document (Some "toggle"%string)) g0 = Some g1 /\
    Main.handleWebSocketMessage text19 19
      (Document (Some "toggle"%string)) g1 = Some g2 /\
    Main.led g2 = Main.led g0 /\
    Main.sent g2 = [status_doc true; status_doc false].
Proof.
  apply (socket_toggle_twice text19 19 g0).
  repeat split.
Defined.

Lemma last_sent_app (g : Main.Globals) (pre : list Json) (doc : Json) :
  Main.sent g = pre ++ [doc] -> last_sent g = Some doc.
Proof.
  intros E. unfold last_sent. rewrite E, map_app. simpl.
  apply last_last.
Qed.

(** One call keeps the clients in step with the LED. *)
Lemma react_in_sync (e : Main.Event) (g g' : Main.Globals) :
  in_sync g -> Main.react e g = Some g' -> in_sync g'.
Proof.
  intros I R. destruct e as [r tc tk tb|rq|type info length payload].
  - injection R as <-. rewrite loop_eq. cbv zeta.
    destruct (pressed (read r tc tk (Main.button g))).
    + right. apply (last_sent_app _ (Main.sent g)). reflexivity.
    + unfold in_sync, last_sent in *. cbn [Main.sent Main.led Led.on].
      rewrite app_nil_r, xorb_false_r. exact I.
  - injection R as <-.
    destruct rq as [| | | | | |[p|]]; exact I.
  - destruct type; simpl in R; try (injection R as <-; exact I).
    destruct (socket_message_cases info length payload g g' R)
      as [->|(E1 & E2)]; [exact I|].
    right. rewrite E1. apply (last_sent_app _ (Main.sent g)). exact E2.
Qed.

(** X21.  The clients are never left with a stale status: whatever calls
    of [loop], of the HTTP handlers and of [onEvent] follow one another,
    once a text has been sent the last one sent is the status of the LED,
    which is also what [processor] puts for [STATE] in the page. *)
Theorem clients_in_sync (es : list Main.Event) :
  forall g g' : Main.Globals,
    in_sync g ->
    Main.react_all es g = Some g' ->
    in_sync g' /\
    (forall doc : Json,
        last_sent g' = Some doc ->
        Main.sent g' <> [] ->
        doc = [("status"%string,
                JScalar (JString (Main.processor "STATE" g')))]).
Proof.
  assert (G : forall (es : list Main.Event) (g g' : Main.Globals),
             in_sync g -> Main.react_all es g = Some g' -> in_sync g').
  { clear es. induction es as [|e es IH]; intros g g' I R.
    - injection R as <-. exact I.
    - simpl in R. destruct (Main.react e g) as [g1|] eqn:E; [|discriminate].
      exact (IH g1 g' (react_in_sync e g g1 I E) R). }
  intros g g' I R. pose proof (G es g g' I R) as I'.
  split; [exact I'|].
  intros doc L N. destruct I' as [C|C]; [contradiction|].
  rewrite C in L. injection L as <-.
  unfold status_doc, Main.processor. simpl String.eqb.
  destruct (Led.on (Main.led g')); reflexivity.
Qed.

Lemma clients_in_sync_witness :
  in_sync (Main.ticks press (Main.notifyClients (Main.toggle_led g0))).
Proof.
  assert (I : in_sync g0) by (left; reflexivity).
  exact (proj1 (clients_in_sync
                  [Main.EvSocket WS_EVT_DATA text19 19
                     (Document (Some "toggle"%string));
                   Main.EvLoop LOW 100 100 100;
                   Main.EvRequest (Main.SetPosition None);
                   Main.EvLoop LOW 111 111 111]
                  g0 _ I eq_refl)).
Defined.

Lemma serve_all_cons (r : Main.Request) (rs : list Main.Request)
    (g : Main.Globals) :
  Main.serve_all (r :: rs) g =
  (fst (Main.serve_all rs (fst (Main.serve r g))),
   snd (Main.serve r g) :: snd (Main.serve_all rs (fst (Main.serve r g)))).
Proof.
  simpl. destruct (Main.serve r g) as [g1 resp]. simpl.
  destruct (Main.serve_all rs g1) as [g2 resps]. reflexivity.
Qed.

(** X22.  The position is stored as it comes.  After a sequence of
    requests the global position is the one of the last [setPosition]
    body that had a position, whatever float it is, and [getPosition]
    reports that value. *)
Theorem requests_position (rs : list Main.Request) :
  forall g : Main.Globals,
    Main.currentPosition (fst (Main.serve_all rs g)) =
      last_position rs (Main.currentPosition g) /\
    snd (Main.getPosition (fst (Main.serve_all rs g))) =
      SendJson 200 "application/json"
        [("axes"%string, JArray [JInt 1]);
         ("units"%string, JArray [JString "mm"]);
         ("position"%string,
          JArray [JFloat (last_position rs (Main.currentPosition g))])].
Proof.
  assert (G : forall (rs : list Main.Request) (g : Main.Globals),
             Main.currentPosition (fst (Main.serve_all rs g)) =
             last_position rs (Main.currentPosition g)).
  { clear rs. induction rs as [|r rs IH]; intros g; [reflexivity|].
    rewrite serve_all_cons. cbn [fst]. rewrite IH.
    destruct r as [| | | | | |[p|]]; reflexivity. }
  intros g. split; [apply G|].
  unfold Main.getPosition. cbn [snd]. rewrite G. reflexivity.
Qed.

(** X23.  After a sequence of requests the homing flag is set exactly
    when it was set before or a [homeAxis] request is among them, and
    [axisHomeCheck] reports it. *)
Theorem requests_homed (rs : list Main.Request) :
  forall g : Main.Globals,
    Main.isHomed (fst (Main.serve_all rs g)) =
      Main.isHomed g || existsb is_HomeAxis rs /\
    snd (Main.axisHomeCheck (fst (Main.serve_all rs g))) =
      SendJson 200 "application/json"
        [("axesChecked"%string, JArray [JInt 1]);
         ("homeStatus"%string,
          JArray [JBool (Main.isHomed g || existsb is_HomeAxis rs)])].
Proof.
  assert (G : forall (rs : list Main.Request) (g : Main.Globals),
             Main.isHomed (fst (Main.serve_all rs g)) =
             Main.isHomed g || existsb is_HomeAxis rs).
  { clear rs. induction rs as [|r rs IH]; intros g.
    - simpl. symmetry. apply orb_false_r.
    - rewrite serve_all_cons. cbn [fst]. rewrite IH.
      destruct r as [| | | | | |[p|]]; simpl; try reflexivity.
      symmetry. apply orb_true_r. }
  intros g. split; [apply G|].
  unfold Main.axisHomeCheck. cbn [snd]. rewrite G. reflexivity.
Qed.

(** X24.  No request is refused: every request of a sequence gets one
    response, with status 200, also a [setPosition] whose body has no
    position, which changes nothing. *)
Theorem requests_always_200 (rs : list Main.Request) :
  forall g : Main.Globals,
    List.length (snd (Main.serve_all rs g)) = List.length rs /\
    Forall (fun resp => status_code resp = 200) (snd (Main.serve_all rs g)) /\
    Main.serve (Main.SetPosition None) g = (g, SendCode 200).
Proof.
  induction rs as [|r rs IH]; intros g.
  - repeat split. constructor.
  - rewrite serve_all_cons. cbn [snd List.length].
    destruct (IH (fst (Main.serve r g))) as (L & F & _).
    split; [rewrite L; reflexivity|]. split; [|reflexivity].
    constructor; [|exact F].
    destruct r as [| | | | | |[p|]]; reflexivity.
Qed.

(** X25.  The two halves of the program work on separate globals.  The
    HTTP handlers leave the button, the two LEDs, the pins and the texts
    sent as they are; [loop] and the WebSocket handler leave the position
    and the homing flag as they are; and nothing writes the step count
    and the step size. *)
Theorem handlers_frame (e : Main.Event) (g g' : Main.Globals) :
  Main.react e g = Some g' ->
  Main.currentPositionSteps g' = Main.currentPositionSteps g /\
  Main.stepsToMilimeters g' = Main.stepsToMilimeters g /\
  (forall r : Main.Request,
      e = Main.EvRequest r ->
      Main.button g' = Main.button g /\ Main.led g' = Main.led g /\
      Main.onboard_led g' = Main.onboard_led g /\
      Main.gpio g' = Main.gpio g /\ Main.sent g' = Main.sent g) /\
  ((forall r : Main.Request, e <> Main.EvRequest r) ->
   Main.currentPosition g' = Main.currentPosition g /\
   Main.isHomed g' = Main.isHomed g).
Proof.
  intros R. destruct e as [r tc tk tb|rq|type info length payload].
  - injection R as <-. rewrite loop_eq. cbv zeta.
    repeat split; try reflexivity; intros; discriminate.
  - injection R as <-.
    split; [destruct rq as [| | | | | |[p|]]; reflexivity|].
    split; [destruct rq as [| | | | | |[p|]]; reflexivity|].
    split.
    + intros r _. destruct rq as [| | | | | |[p|]]; repeat split.
    + intros N. exfalso. exact (N rq eq_refl).
  - assert (F : Main.currentPositionSteps g' = Main.currentPositionSteps g /\
                Main.stepsToMilimeters g' = Main.stepsToMilimeters g /\
                Main.currentPosition g' = Main.currentPosition g /\
                Main.isHomed g' = Main.isHomed g).
    { destruct type; simpl in R;
        try (injection R as <-; repeat split; reflexivity).
      unfold Main.handleWebSocketMessage in R.
      destruct (final info && (index info =? 0) && (len info =? length)
                && frame_type_eqb (opcode info) WS_TEXT);
        [|injection R as <-; repeat split; reflexivity].
      destruct payload as [|[action|]];
        [injection R as <-; repeat split; reflexivity | | discriminate].
      destruct (String.eqb action "toggle");
        injection R as <-; repeat split; reflexivity. }
    destruct F as (F1 & F2 & F3 & F4).
    split; [exact F1|]. split; [exact F2|].
    split; [intros r C; discriminate | intros _; split; assumption].
Qed.

Lemma handlers_frame_witness :
  Main.currentPosition (Main.loop LOW 100 100 100 g0) =
  Main.currentPosition g0.
Proof.
  destruct (handlers_frame (Main.EvLoop LOW 100 100 100) g0 _ eq_refl)
    as (_ & _ & _ & H).
  apply H. intros r C. discriminate.
Defined.

End HandlerFacts.

Section TransportAndDevice.
Import F32 F32Facts.

(** X26.  The HTTP handler does not go through the clamp of [Device].
    For a device whose limit is not negative and a target below [0] or
    above the limit, the position that [setPosition] of [main.cpp] stores
    is the target itself, not the position that [Device::setPosition]
    leaves. *)
Theorem transport_bypasses_clamp
    (p : float) (d : Device) (g : Main.Globals) :
  leb zero (getLimit d) = true ->
  ltb p zero = true \/ gtb p (getLimit d) = true ->
  Main.currentPosition (fst (Main.setPosition (Some p) g)) = p /\
  getPosition (setPosition p d) <> p.
Proof.
  unfold getLimit. intros Hl H. split; [reflexivity|].
  destruct H as [N|A].
  - rewrite (setPosition_negative d p N). simpl. intros E.
    rewrite <- E in N. discriminate.
  - rewrite (setPosition_above d p (gtb_limit_not_negative _ _ Hl A) A).
    simpl. intros E. rewrite <- E in A.
    pose proof (gtb_not_leb _ _ A) as C.
    rewrite (leb_refl (limit d) (leb_not_nan_r _ _ Hl)) in C. discriminate.
Qed.

Lemma transport_bypasses_clamp_witness :
  Main.currentPosition (fst (Main.setPosition (Some (of_Z 200)) g0)) =
    of_Z 200 /\
  getPosition (setPosition (of_Z 200) d80) <> of_Z 200.
Proof.
  apply (transport_bypasses_clamp (of_Z 200) d80 g0).
  - reflexivity.
  - right. reflexivity.
Defined.

End TransportAndDevice.
